(** * gcs-resource: upload planning, parallel upload and version resolution

    A shallow embedding of the Go package [gcsresource] (the storage client:
    [planParallelUpload], [UploadFile], [DownloadFile], [ObjectGenerations])
    and of the [in] command's [pathToDownload], with the properties of the
    repository's specification stated and settled against it.

    Conventions.
    - Go's [int64] (and [int], 64 bits wide on the platforms the resource is
      built for) is a [Z] with the wrap-around written out ([wrap64]).
    - A Go [error] value is its message; [nil] is [None].
    - Calls to the storage service and to the operating system are
      recorded as [Event]s; their answers come from an environment [Env].
    - A run-time panic (integer division by zero) and a process abort are
      outcomes of their own, as is running out of fuel in a paging loop. *)

From Stdlib Require Import ZArith NArith Lia List Bool String Ascii.
From Stdlib Require Import Strings.Byte.
From Stdlib Require Import DecimalString DecimalPos DecimalZ FinFun.
Import ListNotations.

Local Open Scope string_scope.
Local Open Scope Z_scope.
Local Open Scope list_scope.

(** ** 64-bit integers *)

Definition int64_min : Z := - 2 ^ 63.
Definition int64_max : Z := 2 ^ 63 - 1.

Definition in_int64 (z : Z) : Prop := int64_min <= z <= int64_max.

(** Two's-complement wrap-around of a mathematical integer into [int64]. *)
Definition wrap64 (z : Z) : Z := (z + 2 ^ 63) mod 2 ^ 64 - 2 ^ 63.

(** [a << n] on [int64]. *)
Definition shl64 (a : Z) (n : Z) : Z := wrap64 (Z.shiftl a n).

(** [a >> n] on [int64] (arithmetic shift). *)
Definition shr64 (a : Z) (n : Z) : Z := Z.shiftr a n.

(** [a / b] on [int64]: truncated division; [None] is the run-time panic
    "integer divide by zero". *)
Definition quo64 (a b : Z) : option Z :=
  if b =? 0 then None else Some (wrap64 (Z.quot a b)).

(** [a % b] on [int64]: remainder of the truncated division. *)
Definition rem64 (a b : Z) : option Z :=
  if b =? 0 then None else Some (Z.rem a b).

(** The mathematical ceiling of [a / b] for [b > 0]. *)
Definition ceil_div (a b : Z) : Z := (a + b - 1) / b.

Definition MiB : Z := 2 ^ 20.

(** ** Errors, events and the environment *)

Definition error : Type := string.

Definition errBucketNotVersioned : error := "bucket is not versioned".
Definition errNoExtractions : error :=
  "no extractions could be found - is your regexp correct?".

(** Package [storage] of the Google API client: the fields the client
    reads. *)
Module storage.

Record Object : Type := mkObject {
  Name : string;
  Generation : Z;
  Size : Z
}.

(** One page of a listing. *)
Record Objects : Type := mkObjects {
  Items : list Object;
  NextPageToken : string
}.

(** [Versioning] is a pointer: [None] when nil, otherwise its
    [Enabled] flag. *)
Record Bucket : Type := mkBucket {
  Versioning : option bool
}.

End storage.

(** Lines written to standard error. *)
Inductive Log : Type :=
| WarnThreadCap (megabytes : Z)
| InfoParallel (parallelMode : bool) (threads : Z)
| InfoCompose
| InfoCleanup
| WarnDeleteFailed (partName : string) (err : error).

(** Requests issued to the storage service and the operating system, and
    the values received on the error channel of the fan-out. *)
Inductive Event : Type :=
| EvBucketsGet (bucket : string)
| EvObjectsList (bucket prefix : string) (versions : bool) (pageToken : string)
| EvObjectsGet (bucket object : string) (generation : Z)
| EvOsCreate (path : string)
| EvDownload (bucket object : string) (generation : Z)
| EvIoCopy (path : string)
| EvOsStat (path : string)
| EvOsOpen (path : string)
| EvInsert (bucket name contentType predefinedACL : string) (body : list byte)
| EvRecv (worker : nat)
| EvCompose (bucket destination : string) (sources : list string)
| EvDelete (bucket name : string)
| EvStderr (line : Log).

(** The answers of the collaborators.  [osOpen i] answers the open of
    loop iteration [i]; [recvOrder k] names the worker whose result is the
    [k]-th value received on the error channel, that is, the order in
    which the concurrent chunk uploads complete. *)
Record Env : Type := mkEnv {
  bucketsGet : string -> error + storage.Bucket;
  objectsList : string -> string -> bool -> string -> error + storage.Objects;
  objectsGet : string -> string -> Z -> error + storage.Object;
  objectsDownload : string -> string -> Z -> error + list byte;
  osCreate : string -> option error;
  ioCopy : string -> list byte -> option error;
  osStat : string -> error + Z;
  osOpen : nat -> string -> error + list byte;
  objectsInsert : string -> string -> list byte -> error + storage.Object;
  recvOrder : nat -> nat;
  objectsCompose : string -> string -> list string -> error + storage.Object;
  objectsDelete : string -> string -> option error
}.

(** ** The monad of a run: an outcome and the events issued so far *)

Inductive outcome (A : Type) : Type :=
| Done (a : A)
| Panic (msg : string)
| OutOfFuel.
Arguments Done {A} a.
Arguments Panic {A} msg.
Arguments OutOfFuel {A}.

Definition M (A : Type) : Type := outcome A * list Event.

Definition ret {A : Type} (a : A) : M A := (Done a, []).

Definition bind {A B : Type} (m : M A) (k : A -> M B) : M B :=
  match m with
  | (Done a, es) => let (r, es') := k a in (r, es ++ es')
  | (Panic msg, es) => (Panic msg, es)
  | (OutOfFuel, es) => (OutOfFuel, es)
  end.

Definition emit (e : Event) : M unit := (Done tt, [e]).
Definition panic {A : Type} (msg : string) : M A := (Panic msg, []).
Definition outOfFuel {A : Type} : M A := (OutOfFuel, []).

Definition result {A : Type} (m : M A) : outcome A := fst m.
Definition events {A : Type} (m : M A) : list Event := snd m.

Declare Scope run_scope.
Delimit Scope run_scope with run.
Notation "x <- c1 ;; c2" := (bind c1 (fun x => c2))
  (at level 61, c1 at next level, right associativity) : run_scope.
Notation "c1 ;; c2" := (bind c1 (fun _ => c2))
  (at level 61, right associativity) : run_scope.
Local Open Scope run_scope.

(** ** The storage client: the methods of [gcsclient] *)

Module gcsclient.

(** [getBucketVersioning]. *)
Definition getBucketVersioning (env : Env) (bucketName : string)
  : M (bool * option error) :=
  emit (EvBucketsGet bucketName) ;;
  match bucketsGet env bucketName with
  | inl err => ret (false, Some err)
  | inr bucket =>
      match storage.Versioning bucket with
      | Some enabled => ret (enabled, None)
      | None => ret (false, None)
      end
  end.

(** The value of [threads] in [planParallelUpload] before the cap is
    applied: the quotient, plus one when the remainder is not zero. *)
Definition unclampedThreads (fileSize trunkSize : Z) : option Z :=
  match quo64 fileSize trunkSize, rem64 fileSize trunkSize with
  | Some threads, Some r =>
      Some (if negb (r =? 0) then wrap64 (threads + 1) else threads)
  | _, _ => None
  end.

(** [planParallelUpload]: the pair (threads, trunkSize). *)
Definition planParallelUpload (fileSize trunkSize : Z) : M (Z * Z) :=
  match unclampedThreads fileSize trunkSize with
  | None => panic "runtime error: integer divide by zero"
  | Some threads =>
      if threads >? 32 then
        match quo64 fileSize 32 with
        | Some trunkSize' =>
            emit (EvStderr (WarnThreadCap (shr64 trunkSize' 20))) ;;
            ret (32, trunkSize')
        | None => panic "runtime error: integer divide by zero"
        end
      else ret (threads, trunkSize)
  end.

(** One page request of a listing and the paging loop shared by
    [getBucketObjects] and [getObjectGenerations]: [collect] is the body
    of the inner [for ... range objects.Items].  The Go loop has no bound;
    [fuel] bounds the number of pages requested. *)
Fixpoint listPages {A : Type} (env : Env) (fuel : nat)
    (bucketName prefix : string) (versions : bool)
    (collect : list storage.Object -> list A)
    (pageToken : string) (acc : list A) : M (list A * option error) :=
  match fuel with
  | O => outOfFuel
  | S fuel' =>
      emit (EvObjectsList bucketName prefix versions pageToken) ;;
      match objectsList env bucketName prefix versions pageToken with
      | inl err => ret (acc, Some err)
      | inr objects =>
          let acc' := acc ++ collect (storage.Items objects) in
          if (storage.NextPageToken objects =? "")%string then ret (acc', None)
          else listPages env fuel' bucketName prefix versions collect
                 (storage.NextPageToken objects) acc'
      end
  end.

(** [getBucketObjects]. *)
Definition getBucketObjects (env : Env) (fuel : nat)
    (bucketName prefix : string) : M (list string * option error) :=
  listPages env fuel bucketName prefix false (map storage.Name) "" [].

(** [getObjectGenerations]. *)
Definition getObjectGenerations (env : Env) (fuel : nat)
    (bucketName objectPath : string) : M (list Z * option error) :=
  listPages env fuel bucketName objectPath true
    (fun items =>
       map storage.Generation
         (filter (fun object => (storage.Name object =? objectPath)%string) items))
    "" [].

(** [BucketObjects]. *)
Definition BucketObjects (env : Env) (fuel : nat)
    (bucketName prefix : string) : M (list string * option error) :=
  r <- getBucketObjects env fuel bucketName prefix ;;
  match snd r with
  | Some err => ret ([], Some err)
  | None => ret (fst r, None)
  end.

(** [ObjectGenerations]. *)
Definition ObjectGenerations (env : Env) (fuel : nat)
    (bucketName objectPath : string) : M (list Z * option error) :=
  v <- getBucketVersioning env bucketName ;;
  match snd v with
  | Some err => ret ([], Some err)
  | None =>
      if negb (fst v) then ret ([], Some errBucketNotVersioned)
      else
        r <- getObjectGenerations env fuel bucketName objectPath ;;
        match snd r with
        | Some err => ret ([], Some err)
        | None => ret (fst r, None)
        end
  end.

(** [DownloadFile].  A [generation] of 0 leaves the get call without a
    generation; the progress bar is presentation only and is left out. *)
Definition DownloadFile (env : Env)
    (bucketName objectPath : string) (generation : Z) (localPath : string)
  : M (option error) :=
  v <- getBucketVersioning env bucketName ;;
  match snd v with
  | Some err => ret (Some err)
  | None =>
      if negb (fst v) && negb (generation =? 0)
      then ret (Some errBucketNotVersioned)
      else
        emit (EvObjectsGet bucketName objectPath generation) ;;
        match objectsGet env bucketName objectPath generation with
        | inl err => ret (Some err)
        | inr object =>
            emit (EvOsCreate localPath) ;;
            match osCreate env localPath with
            | Some err => ret (Some err)
            | None =>
                emit (EvDownload bucketName objectPath generation) ;;
                match objectsDownload env bucketName objectPath generation with
                | inl err => ret (Some err)
                | inr body =>
                    emit (EvIoCopy localPath) ;;
                    match ioCopy env localPath body with
                    | Some err => ret (Some err)
                    | None => ret None
                    end
                end
            end
        end
  end.

(** ** UploadFile *)

(** [strconv.Itoa]. *)
Definition Itoa (i : Z) : string := NilZero.string_of_int (Z.to_int i).

(** [objectPath + ".part" + strconv.Itoa(int(i))]. *)
Definition partName (objectPath : string) (i : Z) : string :=
  (objectPath ++ ".part" ++ Itoa i)%string.

(** [localFile.Seek(offset, 0)] on a freshly opened file: what is left to
    read.  A negative offset is refused and the position stays at 0 (the
    source ignores the error). *)
Definition seek (data : list byte) (offset : Z) : list byte :=
  if offset <? 0 then data else skipn (Z.to_nat offset) data.

(** [io.LimitReader(r, n)]: at most [n] bytes of [r]. *)
Definition limitReader (r : list byte) (n : Z) : list byte :=
  firstn (Z.to_nat n) r.

(** [readers[i]]: the bytes chunk worker [i] reads. *)
Definition chunkReader (data : list byte) (trunkSize threads i : Z)
  : list byte :=
  let localFile := seek data (wrap64 (trunkSize * i)) in
  if i =? threads - 1 then localFile else limitReader localFile trunkSize.

(** [s[i] = x] on a slice; [None] is the index-out-of-range panic. *)
Fixpoint setAt {A : Type} (i : nat) (x : A) (s : list A) : option (list A) :=
  match s, i with
  | [], _ => None
  | _ :: t, O => Some (x :: t)
  | h :: t, S j => option_map (cons h) (setAt j x t)
  end.

(** The fan-out loop over the chunk indices [todo].  [sourceObjects] is
    the slice of compose sources, filled by index; [sent] holds, by
    worker, the error each launched goroutine sends on the channel.  The
    insert request is recorded when its goroutine is launched.  [inl] is
    the early return on a failed open. *)
Fixpoint fanOut (env : Env)
    (bucketName objectPath objectContentType localPath predefinedACL : string)
    (trunkSize threads : Z) (todo : list nat)
    (sourceObjects : list string) (sent : list (option error))
  : M (error + list string * list (option error)) :=
  match todo with
  | [] => ret (inr (sourceObjects, sent))
  | i :: todo' =>
      emit (EvOsOpen localPath) ;;
      match osOpen env i localPath with
      | inl err => ret (inl err)
      | inr data =>
          let reader := chunkReader data trunkSize threads (Z.of_nat i) in
          let name := partName objectPath (Z.of_nat i) in
          match setAt i name sourceObjects with
          | None => panic "runtime error: index out of range"
          | Some sourceObjects' =>
              emit (EvInsert bucketName name objectContentType
                      predefinedACL reader) ;;
              let err :=
                match objectsInsert env bucketName name reader with
                | inl e => Some e
                | inr _ => None
                end in
              fanOut env bucketName objectPath objectContentType localPath
                predefinedACL trunkSize threads todo' sourceObjects'
                (sent ++ [err])
          end
      end
  end.

(** The join loop: [n] more values to receive, [k] received so far.  It
    returns at the first error received. *)
Fixpoint join (env : Env) (sent : list (option error)) (k n : nat)
  : M (option error) :=
  match n with
  | O => ret None
  | S n' =>
      let worker := recvOrder env k in
      emit (EvRecv worker) ;;
      match nth worker sent None with
      | Some err => ret (Some err)
      | None => join env sent (S k) n'
      end
  end.

(** The cleanup loop: one delete per part; a failure is a warning. *)
Fixpoint cleanup (env : Env) (bucketName objectPath : string)
    (todo : list nat) : M unit :=
  match todo with
  | [] => ret tt
  | i :: todo' =>
      let name := partName objectPath (Z.of_nat i) in
      emit (EvDelete bucketName name) ;;
      match objectsDelete env bucketName name with
      | Some err => emit (EvStderr (WarnDeleteFailed name err))
      | None => ret tt
      end ;;
      cleanup env bucketName objectPath todo'
  end.

(** The plan [UploadFile] settles on: (threads, trunkSize, parallelMode). *)
Definition uploadPlan (fileSize parallelUploadThreshold : Z)
  : M (Z * Z * bool) :=
  let trunkSize := shl64 parallelUploadThreshold 20 in
  p <- (if parallelUploadThreshold >? 0 then
          p <- planParallelUpload fileSize trunkSize ;;
          emit (EvStderr (InfoParallel false (fst p))) ;;
          ret p
        else ret (1, trunkSize)) ;;
  ret (fst p, snd p, fst p >? 1).

(** The branch [if parallelMode]. *)
Definition uploadParallel (env : Env)
    (bucketName objectPath objectContentType localPath predefinedACL : string)
    (threads trunkSize : Z) : M (Z * option error) :=
  let n := Z.to_nat threads in
  f <- fanOut env bucketName objectPath objectContentType localPath
         predefinedACL trunkSize threads (seq 0 n) (repeat "" n) [] ;;
  match f with
  | inl err => ret (0, Some err)
  | inr (sourceObjects, sent) =>
      e <- join env sent 0 n ;;
      match e with
      | Some err => ret (0, Some err)
      | None =>
          emit (EvStderr InfoCompose) ;;
          emit (EvCompose bucketName objectPath sourceObjects) ;;
          match objectsCompose env bucketName objectPath sourceObjects with
          | inl err => ret (0, Some err)
          | inr _ =>
              emit (EvStderr InfoCleanup) ;;
              cleanup env bucketName objectPath (seq 0 n) ;;
              ret (0, None)
          end
      end
  end.

(** The branch [else]: one insert of the whole file. *)
Definition uploadSingle (env : Env)
    (bucketName objectPath objectContentType localPath predefinedACL : string)
    (isBucketVersioned : bool) : M (Z * option error) :=
  emit (EvOsOpen localPath) ;;
  match osOpen env O localPath with
  | inl err => ret (0, Some err)
  | inr data =>
      emit (EvInsert bucketName objectPath objectContentType
              predefinedACL data) ;;
      match objectsInsert env bucketName objectPath data with
      | inl err => ret (0, Some err)
      | inr uploadedObject =>
          if isBucketVersioned then ret (storage.Generation uploadedObject, None)
          else ret (0, None)
      end
  end.

(** [UploadFile].  The progress bar wraps the readers and writes to the
    progress output only; it is left out, as is the media option that
    repeats the content type of the object. *)
Definition UploadFile (env : Env)
    (bucketName objectPath objectContentType localPath predefinedACL : string)
    (parallelUploadThreshold : Z) : M (Z * option error) :=
  v <- getBucketVersioning env bucketName ;;
  match snd v with
  | Some err => ret (0, Some err)
  | None =>
      emit (EvOsStat localPath) ;;
      match osStat env localPath with
      | inl err => ret (0, Some err)
      | inr fileSize =>
          plan <- uploadPlan fileSize parallelUploadThreshold ;;
          let '(threads, trunkSize, parallelMode) := plan in
          if parallelMode then
            uploadParallel env bucketName objectPath objectContentType
              localPath predefinedACL threads trunkSize
          else
            uploadSingle env bucketName objectPath objectContentType
              localPath predefinedACL (fst v)
      end
  end.

(** [URL].  The get call carries the generation when it is not 0; [%d]
    prints it as its decimal numeral. *)
Definition URL (env : Env) (bucketName objectPath : string) (generation : Z)
  : M (string * option error) :=
  emit (EvObjectsGet bucketName objectPath generation) ;;
  match objectsGet env bucketName objectPath generation with
  | inl err => ret ("", Some err)
  | inr _ =>
      if negb (generation =? 0) then
        ret (("gs://" ++ bucketName ++ "/" ++ objectPath ++ "#"
              ++ Itoa generation)%string, None)
      else ret (("gs://" ++ bucketName ++ "/" ++ objectPath)%string, None)
  end.

End gcsclient.

(** ** The interface [GCSClient] and the types of package gcsresource *)

(** The methods of the interface that the modelled code calls. *)
Record GCSClient : Type := mkGCSClient {
  BucketObjects : string -> string -> M (list string * option error);
  ObjectGenerations : string -> string -> M (list Z * option error);
  DownloadFile : string -> string -> Z -> string -> M (option error);
  UploadFile : string -> string -> string -> string -> string -> Z
               -> M (Z * option error)
}.

(** [NewGCSClient]: the client over a storage service; [fuel] bounds the
    pages a listing may request. *)
Definition NewGCSClient (env : Env) (fuel : nat) : GCSClient :=
  {| BucketObjects := gcsclient.BucketObjects env fuel;
     ObjectGenerations := gcsclient.ObjectGenerations env fuel;
     DownloadFile := gcsclient.DownloadFile env;
     UploadFile := gcsclient.UploadFile env |}.

(** A client whose listing answers [keys] and no error, as the fake
    client of the test suite does once set up with
    [BucketObjectsReturns(keys, nil)]; its other methods return zero
    values. *)
Definition FakeGCSClient (keys : list string) : GCSClient :=
  {| BucketObjects := fun _ _ => ret (keys, None);
     ObjectGenerations := fun _ _ => ret ([], None);
     DownloadFile := fun _ _ _ _ => ret None;
     UploadFile := fun _ _ _ _ _ _ => ret (0, None) |}.

Module gcsresource.

(** [Source], the fields used here. *)
Record Source : Type := mkSource {
  Bucket : string;
  Regexp : string;
  VersionedFile : string
}.

(** [Version]. *)
Record Version : Type := mkVersion {
  Path : string;
  Generation : string
}.

End gcsresource.

(** ** Package versions

    The package is not among the sources at hand; only its callers are
    ([pathToDownload], [inByRegex]).  Its definitions follow the words of
    the specification. *)

Module versions.

(** Modelled from the spec: the type [Extraction] of package versions, a
    pairing of the object key and the version token captured from it; the
    field names are those its callers use. *)
Record Extraction : Type := mkExtraction {
  Path : string;
  VersionNumber : string
}.

(** Modelled from the spec: the decomposition of a token of package
    versions into segments, each a run of digits, read as an unsigned
    integer of any size, or a run of other characters. *)
Inductive Segment : Type :=
| Digits (n : N)
| Text (s : list ascii).

(** Modelled from the spec: the digit characters of package versions. *)
Definition isDigit (c : ascii) : bool :=
  ((48 <=? N_of_ascii c) && (N_of_ascii c <=? 57))%N.

(** Modelled from the spec: the split of a token of package versions into
    alternating maximal runs of digit and of non-digit characters, in
    order. *)
Fixpoint runs (s : list ascii) : list (bool * list ascii) :=
  match s with
  | [] => []
  | c :: s' =>
      match runs s' with
      | (d, r) :: rest =>
          if Bool.eqb d (isDigit c) then (d, c :: r) :: rest
          else (isDigit c, [c]) :: (d, r) :: rest
      | [] => [(isDigit c, [c])]
      end
  end.

(** Modelled from the spec: the value of a digit run of package versions,
    an unsigned integer of any size. *)
Definition digitsValue (r : list ascii) : N :=
  fold_left (fun acc c => (10 * acc + (N_of_ascii c - 48))%N) r 0%N.

(** Modelled from the spec: the segment of package versions for a run. *)
Definition toSegment (run : bool * list ascii) : Segment :=
  if fst run then Digits (digitsValue (snd run)) else Text (snd run).

(** Modelled from the spec: the ordered segments of a raw token of
    package versions. *)
Definition segments (raw : string) : list Segment :=
  map toSegment (runs (list_ascii_of_string raw)).

(** Modelled from the spec: the comparator of package versions compares
    runs pairwise left to right, and a token that runs out of segments
    first sorts first. *)
Fixpoint lexCompare {A : Type} (cmp : A -> A -> comparison)
    (l1 l2 : list A) : comparison :=
  match l1, l2 with
  | [], [] => Eq
  | [], _ :: _ => Lt
  | _ :: _, [] => Gt
  | x :: l1', y :: l2' =>
      match cmp x y with
      | Eq => lexCompare cmp l1' l2'
      | r => r
      end
  end.

(** Modelled from the spec: package versions compares characters by code
    point. *)
Definition compareChar (a b : ascii) : comparison :=
  N.compare (N_of_ascii a) (N_of_ascii b).

(** Modelled from the spec: the comparison of two runs in package
    versions.  Digit runs compare as unsigned integers, other runs by code
    point.  The specification leaves a digit run against a non-digit run
    open; here the digit run sorts first. *)
Definition compareSegment (a b : Segment) : comparison :=
  match a, b with
  | Digits m, Digits n => N.compare m n
  | Text s, Text t => lexCompare compareChar s t
  | Digits _, Text _ => Lt
  | Text _, Digits _ => Gt
  end.

(** Modelled from the spec: the order of version tokens of package
    versions. *)
Definition compareVersions (a b : string) : comparison :=
  lexCompare compareSegment (segments a) (segments b).

(** Modelled from the spec: in the order of package versions, [a] sorts
    before [b] or with it. *)
Definition versionLeb (a b : string) : bool :=
  match compareVersions a b with
  | Gt => false
  | _ => true
  end.

(** Modelled from the spec: package versions orders extractions by their
    version tokens alone. *)
Definition extractionLeb (a b : Extraction) : bool :=
  versionLeb (VersionNumber a) (VersionNumber b).

(** Modelled from the spec: one step of the sort of package versions. *)
Fixpoint insertExtraction (e : Extraction) (l : list Extraction)
  : list Extraction :=
  match l with
  | [] => [e]
  | h :: t => if extractionLeb e h then e :: l else h :: insertExtraction e t
  end.

(** Modelled from the spec: the sort of package versions that puts the
    extractions in ascending order of their version tokens (an insertion
    sort; the last element is a maximal one). *)
Definition sortExtractions (l : list Extraction) : list Extraction :=
  fold_right insertExtraction [] l.

Section WithRegexp.

(** [regexp.FindStringSubmatch] of the Go library, for a pattern and a
    text: the whole match followed by the text of each capturing group,
    [None] when the pattern does not match. *)
Variable FindStringSubmatch : string -> string -> option (list string).

(** Modelled from the spec: [Extract] of package versions applies the
    pattern to the key; the text of the capturing group is the token, and
    [found] is false when the pattern does not match or has no group. *)
Definition Extract (path pattern : string) : Extraction * bool :=
  match FindStringSubmatch pattern path with
  | Some (_ :: token :: _) => (mkExtraction path token, true)
  | _ => (mkExtraction "" "", false)
  end.

(** Modelled from the spec: the candidate pool of package versions, the
    extractions of the keys that match, in listing order. *)
Fixpoint extractAll (keys : list string) (pattern : string)
  : list Extraction :=
  match keys with
  | [] => []
  | key :: keys' =>
      let (extraction, found) := Extract key pattern in
      if found then extraction :: extractAll keys' pattern
      else extractAll keys' pattern
  end.

(** Modelled from the spec: [GetBucketObjectVersions] of package versions
    lists the keys of the bucket, extracts a token from each key that
    matches, and returns the extractions in ascending order.  Its callers
    receive no error from it: a failed listing ends the run. *)
Definition GetBucketObjectVersions (client : GCSClient)
    (source : gcsresource.Source) : M (list Extraction) :=
  r <- BucketObjects client (gcsresource.Bucket source) "" ;;
  match snd r with
  | Some err => panic ("listing files: " ++ err)%string
  | None =>
      ret (sortExtractions (extractAll (fst r) (gcsresource.Regexp source)))
  end.

End WithRegexp.

End versions.

(** ** The in command *)

Module incommand.

Record InRequest : Type := mkInRequest {
  Source : gcsresource.Source;
  Version : gcsresource.Version
}.

Record InCommand : Type := mkInCommand {
  gcsClient : GCSClient
}.

Section WithRegexp.

Variable FindStringSubmatch : string -> string -> option (list string).

(** [pathToDownload]. *)
Definition pathToDownload (command : InCommand) (request : InRequest)
  : M (string * option error) :=
  if negb (gcsresource.Path (Version request) =? "")%string then
    ret (gcsresource.Path (Version request), None)
  else
    extractions <- versions.GetBucketObjectVersions FindStringSubmatch
                     (gcsClient command) (Source request) ;;
    if (List.length extractions =? 0)%nat then ret ("", Some errNoExtractions)
    else
      let lastExtraction :=
        nth (List.length extractions - 1) extractions
          (versions.mkExtraction "" "") in
      ret (versions.Path lastExtraction, None).

End WithRegexp.

End incommand.

(** ** A fragment of Go's regexp

    Patterns of the form [pre], one capturing group of dot-star, [post],
    in which [pre] and [post] are made of literal characters and dots;
    this is the form of the patterns of the test suite.  The match is the leftmost one and the group is
    greedy, as in the Go library. *)

Module regexp.

Inductive Atom : Type :=
| Lit (c : ascii)
| AnyChar.

(** A dot matches any character but the line feed. *)
Definition matchAtom (a : Atom) (c : ascii) : bool :=
  match a with
  | Lit x => Ascii.eqb x c
  | AnyChar => negb (Ascii.eqb c "010"%char)
  end.

(** Match a sequence of atoms at the head of the text; the rest of the
    text on success. *)
Fixpoint matchAtoms (p : list Atom) (s : list ascii) : option (list ascii) :=
  match p, s with
  | [], _ => Some s
  | _ :: _, [] => None
  | a :: p', c :: s' => if matchAtom a c then matchAtoms p' s' else None
  end.

(** The group followed by [post], at the head of the text: the longest
    capture after which [post] matches, with the text [post] matched. *)
Fixpoint greedy (post : list Atom) (s : list ascii)
  : option (list ascii * list ascii) :=
  let here :=
    match matchAtoms post s with
    | Some _ => Some ([], firstn (List.length post) s)
    | None => None
    end in
  match s with
  | [] => here
  | c :: s' =>
      match (if matchAtom AnyChar c then greedy post s' else None) with
      | Some (capture, matched) => Some (c :: capture, matched)
      | None => here
      end
  end.

(** The leftmost match of the whole pattern: the whole match and the
    group. *)
Fixpoint find (pre post : list Atom) (s : list ascii)
  : option (list ascii * list ascii) :=
  let next :=
    match s with
    | [] => None
    | _ :: s' => find pre post s'
    end in
  match matchAtoms pre s with
  | Some rest =>
      match greedy post rest with
      | Some (capture, matched) =>
          Some (firstn (List.length pre) s ++ capture ++ matched, capture)
      | None => next
      end
  | None => next
  end.

Definition isMeta (c : ascii) : bool :=
  existsb (Ascii.eqb c) (list_ascii_of_string "\+*?()|[]{}^$").

(** The atoms of a group-free piece of a pattern; [None] when it uses an
    operator outside the fragment. *)
Fixpoint atoms (p : list ascii) : option (list Atom) :=
  match p with
  | [] => Some []
  | c :: p' =>
      if isMeta c then None
      else option_map (cons (if Ascii.eqb c "."%char then AnyChar else Lit c))
             (atoms p')
  end.

(** Split a pattern at its capturing group of dot-star. *)
Fixpoint splitGroup (p : list ascii) : option (list ascii * list ascii) :=
  match p with
  | "("%char :: "."%char :: "*"%char :: ")"%char :: post => Some ([], post)
  | c :: p' =>
      match splitGroup p' with
      | Some (pre, post) => Some (c :: pre, post)
      | None => None
      end
  | [] => None
  end.

(** [FindStringSubmatch] on the fragment; a pattern outside it, or one
    without the group, yields no submatch. *)
Definition FindStringSubmatch (pattern text : string)
  : option (list string) :=
  match splitGroup (list_ascii_of_string pattern) with
  | Some (pre, post) =>
      match atoms pre, atoms post with
      | Some pre', Some post' =>
          match find pre' post' (list_ascii_of_string text) with
          | Some (whole, capture) =>
              Some [string_of_list_ascii whole; string_of_list_ascii capture]
          | None => None
          end
      | _, _ => None
      end
  | None => None
  end.

End regexp.

(** ** Observations on a run *)

(** What [getBucketVersioning] reports for a bucket. *)
Definition versioningEnabled (bucket : storage.Bucket) : bool :=
  match storage.Versioning bucket with
  | Some enabled => enabled
  | None => false
  end.

(** The compose requests of a run, in order. *)
Definition composeRequests (es : list Event)
  : list (string * string * list string) :=
  flat_map (fun e => match e with
                     | EvCompose b d srcs => [(b, d, srcs)]
                     | _ => []
                     end) es.

(** The delete requests of a run, in order. *)
Definition deleteRequests (es : list Event) : list (string * string) :=
  flat_map (fun e => match e with
                     | EvDelete b name => [(b, name)]
                     | _ => []
                     end) es.

(** The insert requests of a run: object name and the bytes read for it. *)
Definition insertRequests (es : list Event) : list (string * list byte) :=
  flat_map (fun e => match e with
                     | EvInsert _ name _ _ body => [(name, body)]
                     | _ => []
                     end) es.

(** The workers whose results the coordinator received, in order. *)
Definition received (es : list Event) : list nat :=
  flat_map (fun e => match e with
                     | EvRecv worker => [worker]
                     | _ => []
                     end) es.

(** The names of the first [n] parts of an object. *)
Definition partNames (objectPath : string) (n : nat) : list string :=
  map (fun i => gcsclient.partName objectPath (Z.of_nat i)) (seq 0 n).

(** The error chunk worker [i] sends on the channel, given the bytes
    [data] its open of the file returned. *)
Definition workerError (env : Env) (bucketName objectPath : string)
    (data : list byte) (trunkSize threads : Z) (i : nat) : option error :=
  match objectsInsert env bucketName
          (gcsclient.partName objectPath (Z.of_nat i))
          (gcsclient.chunkReader data trunkSize threads (Z.of_nat i)) with
  | inl e => Some e
  | inr _ => None
  end.

(** The events of launching chunk worker [i] on a file holding [data]. *)
Definition launch
    (bucketName objectPath objectContentType localPath predefinedACL : string)
    (trunkSize threads : Z) (data : list byte) (i : nat) : list Event :=
  [EvOsOpen localPath;
   EvInsert bucketName (gcsclient.partName objectPath (Z.of_nat i))
     objectContentType predefinedACL
     (gcsclient.chunkReader data trunkSize threads (Z.of_nat i))].

(** The events of deleting part [i]. *)
Definition deletion (env : Env) (bucketName objectPath : string) (i : nat)
  : list Event :=
  let name := gcsclient.partName objectPath (Z.of_nat i) in
  EvDelete bucketName name
  :: match objectsDelete env bucketName name with
     | Some err => [EvStderr (WarnDeleteFailed name err)]
     | None => []
     end.

(** Each of the [n] chunk workers reports exactly once among the first [n]
    values received. *)
Definition arrivesOnce (order : nat -> nat) (n : nat) : Prop :=
  (forall k, (k < n)%nat -> (order k < n)%nat)
  /\ (forall i, (i < n)%nat -> exists k, (k < n)%nat /\ order k = i).

(** A multi-part upload of a local file that holds [data] throughout:
    the bucket answers, the file reports and yields [data], and the plan
    for its size is parallel with [threads] threads of [trunkSize]
    bytes. *)
Definition parallelUpload (env : Env) (bucketName localPath : string)
    (threshold : Z) (data : list byte) (threads trunkSize : Z) : Prop :=
  (exists bucket, bucketsGet env bucketName = inr bucket)
  /\ osStat env localPath = inr (Z.of_nat (List.length data))
  /\ Z.of_nat (List.length data) <= int64_max
  /\ (forall i, osOpen env i localPath = inr data)
  /\ result (gcsclient.uploadPlan (Z.of_nat (List.length data)) threshold)
     = Done (threads, trunkSize, true).

(** The environment with another order of completion of the chunk
    workers. *)
Definition withRecvOrder (env : Env) (order : nat -> nat) : Env :=
  {| bucketsGet := bucketsGet env;
     objectsList := objectsList env;
     objectsGet := objectsGet env;
     objectsDownload := objectsDownload env;
     osCreate := osCreate env;
     ioCopy := ioCopy env;
     osStat := osStat env;
     osOpen := osOpen env;
     objectsInsert := objectsInsert env;
     recvOrder := order;
     objectsCompose := objectsCompose env;
     objectsDelete := objectsDelete env |}.

(** The bytes of [data] from offset [lo] up to offset [hi]. *)
Definition slice (data : list byte) (lo hi : nat) : list byte :=
  firstn (hi - lo) (skipn lo data).

(** A three-way comparison that orders its type totally, up to the
    elements it holds equal. *)
Class TotalComparison {A : Type} (cmp : A -> A -> comparison) : Prop := {
  cmp_antisym : forall a b, cmp b a = CompOpp (cmp a b);
  cmp_eq_left : forall a b c, cmp a b = Eq -> cmp a c = cmp b c;
  cmp_lt_trans : forall a b c, cmp a b = Lt -> cmp b c = Lt -> cmp a c = Lt
}.

(** Every extraction is at most each extraction after it. *)
Fixpoint ascending (l : list versions.Extraction) : Prop :=
  match l with
  | [] => True
  | h :: t =>
      (forall x, In x t -> versions.extractionLeb h x = true) /\ ascending t
  end.

(** ** Environments for worked examples *)

(** A store and a file system that answer every request: the bucket has
    the given versioning setting, the local file holds [data],
    [insertFails] and [deleteFails] name the objects whose insert or
    delete is refused, and [order] is the order in which the chunk workers
    report. *)
Definition sampleEnv (versioning : option bool) (data : list byte)
    (insertFails deleteFails : string -> bool) (order : nat -> nat) : Env :=
  {| bucketsGet := fun _ => inr (storage.mkBucket versioning);
     objectsList := fun _ _ _ _ => inr (storage.mkObjects [] "");
     objectsGet := fun _ name generation =>
                     inr (storage.mkObject name generation 0);
     objectsDownload := fun _ _ _ => inr [];
     osCreate := fun _ => None;
     ioCopy := fun _ _ => None;
     osStat := fun _ => inr (Z.of_nat (List.length data));
     osOpen := fun _ _ => inr data;
     objectsInsert := fun _ name _ =>
                        if insertFails name then inl "insert failed"
                        else inr (storage.mkObject name 1526400000000000 0);
     recvOrder := order;
     objectsCompose := fun _ name _ => inr (storage.mkObject name 0 0);
     objectsDelete := fun _ name =>
                        if deleteFails name then Some "delete failed"
                        else None |}.

(** A file of 1 MiB + 1 bytes: with a threshold of 1 megabyte it is
    uploaded in two parts. *)
Definition twoPartFile : list byte := repeat x00 (Z.to_nat (MiB + 1)).

Definition nowhere (_ : string) : bool := false.

(** ** Listings served in pages *)

(** The store answers a listing that starts at [token] with [pages], one
    after the other: each page but the last names the token of the next,
    and the last names none. *)
Fixpoint servesPages (env : Env) (bucketName prefix : string)
    (versions : bool) (token : string) (pages : list storage.Objects)
  : Prop :=
  match pages with
  | [] => False
  | page :: rest =>
      objectsList env bucketName prefix versions token = inr page
      /\ match rest with
         | [] => storage.NextPageToken page = ""
         | _ :: _ =>
             storage.NextPageToken page <> ""
             /\ servesPages env bucketName prefix versions
                  (storage.NextPageToken page) rest
         end
  end.

(** The page tokens a listing of [pages] sends, the empty one first. *)
Definition pageTokens (pages : list storage.Objects) : list string :=
  "" :: map storage.NextPageToken (removelast pages).

(** The requests of [DownloadFile] that runs to its end. *)
Definition downloadRequests (bucketName objectPath : string) (generation : Z)
    (localPath : string) : list Event :=
  [EvBucketsGet bucketName;
   EvObjectsGet bucketName objectPath generation;
   EvOsCreate localPath;
   EvDownload bucketName objectPath generation;
   EvIoCopy localPath].

(** ** Environments that differ in one answer *)

Definition withBucketsGet (env : Env)
    (answer : string -> error + storage.Bucket) : Env :=
  {| bucketsGet := answer;
     objectsList := objectsList env;
     objectsGet := objectsGet env;
     objectsDownload := objectsDownload env;
     osCreate := osCreate env;
     ioCopy := ioCopy env;
     osStat := osStat env;
     osOpen := osOpen env;
     objectsInsert := objectsInsert env;
     recvOrder := recvOrder env;
     objectsCompose := objectsCompose env;
     objectsDelete := objectsDelete env |}.

Definition withObjectsList (env : Env)
    (answer : string -> string -> bool -> string -> error + storage.Objects)
  : Env :=
  {| bucketsGet := bucketsGet env;
     objectsList := answer;
     objectsGet := objectsGet env;
     objectsDownload := objectsDownload env;
     osCreate := osCreate env;
     ioCopy := ioCopy env;
     osStat := osStat env;
     osOpen := osOpen env;
     objectsInsert := objectsInsert env;
     recvOrder := recvOrder env;
     objectsCompose := objectsCompose env;
     objectsDelete := objectsDelete env |}.

Definition withObjectsGet (env : Env)
    (answer : string -> string -> Z -> error + storage.Object) : Env :=
  {| bucketsGet := bucketsGet env;
     objectsList := objectsList env;
     objectsGet := answer;
     objectsDownload := objectsDownload env;
     osCreate := osCreate env;
     ioCopy := ioCopy env;
     osStat := osStat env;
     osOpen := osOpen env;
     objectsInsert := objectsInsert env;
     recvOrder := recvOrder env;
     objectsCompose := objectsCompose env;
     objectsDelete := objectsDelete env |}.

Definition withOsStat (env : Env) (answer : string -> error + Z) : Env :=
  {| bucketsGet := bucketsGet env;
     objectsList := objectsList env;
     objectsGet := objectsGet env;
     objectsDownload := objectsDownload env;
     osCreate := osCreate env;
     ioCopy := ioCopy env;
     osStat := answer;
     osOpen := osOpen env;
     objectsInsert := objectsInsert env;
     recvOrder := recvOrder env;
     objectsCompose := objectsCompose env;
     objectsDelete := objectsDelete env |}.

Definition withOsOpen (env : Env)
    (answer : nat -> string -> error + list byte) : Env :=
  {| bucketsGet := bucketsGet env;
     objectsList := objectsList env;
     objectsGet := objectsGet env;
     objectsDownload := objectsDownload env;
     osCreate := osCreate env;
     ioCopy := ioCopy env;
     osStat := osStat env;
     osOpen := answer;
     objectsInsert := objectsInsert env;
     recvOrder := recvOrder env;
     objectsCompose := objectsCompose env;
     objectsDelete := objectsDelete env |}.

Definition withObjectsCompose (env : Env)
    (answer : string -> string -> list string -> error + storage.Object)
  : Env :=
  {| bucketsGet := bucketsGet env;
     objectsList := objectsList env;
     objectsGet := objectsGet env;
     objectsDownload := objectsDownload env;
     osCreate := osCreate env;
     ioCopy := ioCopy env;
     osStat := osStat env;
     osOpen := osOpen env;
     objectsInsert := objectsInsert env;
     recvOrder := recvOrder env;
     objectsCompose := answer;
     objectsDelete := objectsDelete env |}.

(** A listing in two pages: [first] at the empty token, then [second] at
    the token "page-2". *)
Definition twoPages (first second : list storage.Object)
    (_ _ : string) (_ : bool) (token : string) : error + storage.Objects :=
  if (token =? "")%string then inr (storage.mkObjects first "page-2")
  else inr (storage.mkObjects second "").

(** A listing every page of which names a next page. *)
Definition endlessPages (_ _ : string) (_ : bool) (_ : string)
  : error + storage.Objects :=
  inr (storage.mkObjects [] "more").

(** * Properties *)

(** ** Arithmetic of the planner *)

Section Int64.

Lemma wrap64_small (z : Z) : in_int64 z -> wrap64 z = z.
Proof.
  unfold wrap64, in_int64, int64_min, int64_max. intros H.
  rewrite Z.mod_small; lia.
Qed.

Lemma ceil_div_split (a b : Z) :
  0 <= a -> 0 < b ->
  ceil_div a b = a / b + (if a mod b =? 0 then 0 else 1).
Proof.
  intros Ha Hb. unfold ceil_div.
  pose proof (Z.div_mod a b ltac:(lia)) as Hdm.
  pose proof (Z.mod_pos_bound a b Hb) as Hr.
  destruct (Z.eqb_spec (a mod b) 0) as [E | E].
  - symmetry. apply (Z.div_unique _ _ _ (b - 1)); lia.
  - symmetry. apply (Z.div_unique _ _ _ (a mod b - 1)); lia.
Qed.

Lemma ceil_div_bounds (a b : Z) :
  0 <= a -> 0 < b -> 0 <= ceil_div a b <= a.
Proof.
  intros Ha Hb. rewrite ceil_div_split by assumption.
  pose proof (Z.div_mod a b ltac:(lia)) as Hdm.
  pose proof (Z.mod_pos_bound a b Hb) as Hr.
  pose proof (Z.div_pos a b Ha Hb) as Hq.
  destruct (Z.eqb_spec (a mod b) 0) as [E | E]; nia.
Qed.

Lemma ceil_div_gt (a b n : Z) :
  0 <= a -> 0 < b -> 0 <= n -> (ceil_div a b > n <-> a > n * b).
Proof.
  intros Ha Hb Hn. rewrite ceil_div_split by assumption.
  pose proof (Z.div_mod a b ltac:(lia)) as Hdm.
  pose proof (Z.mod_pos_bound a b Hb) as Hr.
  destruct (Z.eqb_spec (a mod b) 0) as [E | E]; split; intros H; nia.
Qed.

End Int64.

Section Planner.

Import gcsclient.

Lemma unclampedThreads_ceil (fileSize trunkSize : Z) :
  0 <= fileSize -> fileSize <= int64_max -> 0 < trunkSize ->
  unclampedThreads fileSize trunkSize = Some (ceil_div fileSize trunkSize).
Proof.
  intros Hfs Hmax Hts.
  pose proof (ceil_div_bounds fileSize trunkSize Hfs Hts) as Hb.
  pose proof (Z.div_pos fileSize trunkSize Hfs Hts) as Hq.
  assert (Hle : fileSize / trunkSize <= ceil_div fileSize trunkSize).
  { rewrite ceil_div_split by assumption.
    destruct (fileSize mod trunkSize =? 0); lia. }
  unfold unclampedThreads, quo64, rem64.
  destruct (Z.eqb_spec trunkSize 0) as [E | _]; [lia |].
  rewrite Z.quot_div_nonneg, Z.rem_mod_nonneg by lia.
  rewrite (wrap64_small (fileSize / trunkSize))
    by (unfold in_int64, int64_min, int64_max in *; lia).
  f_equal. rewrite ceil_div_split by assumption.
  destruct (Z.eqb_spec (fileSize mod trunkSize) 0) as [E | E]; simpl.
  - lia.
  - rewrite ceil_div_split in Hb by assumption.
    destruct (Z.eqb_spec (fileSize mod trunkSize) 0); [contradiction |].
    apply wrap64_small. unfold in_int64, int64_min, int64_max in *. lia.
Qed.

Lemma planParallelUpload_unclamped (fileSize trunkSize : Z) :
  0 <= fileSize -> fileSize <= int64_max -> 0 < trunkSize ->
  ceil_div fileSize trunkSize <= 32 ->
  planParallelUpload fileSize trunkSize
  = ret (ceil_div fileSize trunkSize, trunkSize).
Proof.
  intros Hfs Hmax Hts Hc. unfold planParallelUpload.
  rewrite unclampedThreads_ceil by assumption.
  destruct (Z.gtb_spec (ceil_div fileSize trunkSize) 32); [lia | reflexivity].
Qed.

Lemma planParallelUpload_clamped (fileSize trunkSize : Z) :
  0 <= fileSize -> fileSize <= int64_max -> 0 < trunkSize ->
  ceil_div fileSize trunkSize > 32 ->
  planParallelUpload fileSize trunkSize
  = (Done (32, fileSize / 32),
     [EvStderr (WarnThreadCap (fileSize / 32 / 2 ^ 20))]).
Proof.
  intros Hfs Hmax Hts Hc. unfold planParallelUpload.
  rewrite unclampedThreads_ceil by assumption.
  destruct (Z.gtb_spec (ceil_div fileSize trunkSize) 32); [| lia].
  unfold quo64. simpl (32 =? 0).  cbv iota.
  rewrite Z.quot_div_nonneg by lia.
  pose proof (Z.div_pos fileSize 32 Hfs ltac:(lia)) as Hq.
  pose proof (Z.div_le_upper_bound fileSize 32 fileSize ltac:(lia) ltac:(lia)).
  rewrite wrap64_small
    by (unfold in_int64, int64_min, int64_max in *; lia).
  unfold shr64. rewrite Z.shiftr_div_pow2 by lia. reflexivity.
Qed.

End Planner.

(** ** The plan of an upload *)

(** C7. For a file size above zero and a positive chunk size, the thread
    count [planParallelUpload] computes before the cap is the ceiling of
    fileSize / trunkSize, and it is the planned count when it does not
    exceed 32.  A file of 500 MiB with a threshold of 150 MiB is planned
    as 4 threads of 150 MiB, which leaves 50 MiB to the last chunk. *)
Theorem C7_threads_are_ceiling (fileSize trunkSize : Z)
    (Hpos : 0 < fileSize) (Hmax : fileSize <= int64_max)
    (Htrunk : 0 < trunkSize) :
  gcsclient.unclampedThreads fileSize trunkSize
  = Some (ceil_div fileSize trunkSize)
  /\ (ceil_div fileSize trunkSize <= 32 ->
      gcsclient.planParallelUpload fileSize trunkSize
      = ret (ceil_div fileSize trunkSize, trunkSize))
  /\ gcsclient.unclampedThreads (500 * MiB) (150 * MiB) = Some 4
  /\ result (gcsclient.planParallelUpload (500 * MiB) (150 * MiB))
     = Done (4, 150 * MiB)
  /\ result (gcsclient.uploadPlan (500 * MiB) 150) = Done (4, 150 * MiB, true)
  /\ 500 * MiB - (4 - 1) * (150 * MiB) = 50 * MiB.
Proof.
  split; [apply unclampedThreads_ceil; lia |].
  split; [intros Hc; apply planParallelUpload_unclamped; lia |].
  repeat split; vm_compute; reflexivity.
Qed.

Lemma C7_threads_are_ceiling_witness :
  gcsclient.unclampedThreads (500 * MiB) (150 * MiB)
  = Some (ceil_div (500 * MiB) (150 * MiB))
  /\ ceil_div (500 * MiB) (150 * MiB) = 4.
Proof.
  split.
  - apply (C7_threads_are_ceiling (500 * MiB) (150 * MiB));
      unfold MiB, int64_max; lia.
  - vm_compute. reflexivity.
Defined.

(** C5, as the code has it. When the ceiling of fileSize / trunkSize
    exceeds 32, the plan is exactly 32 threads with the chunk size
    recomputed as fileSize / 32 rounded down, and a warning is written.
    Thirty-two such chunks never exceed the file; for
    fileSize = trunkSize * 32 + 1 the recomputed chunk size is trunkSize
    and 32 chunks fall one byte short of the file. *)
Theorem C5_clamp_to_32 (fileSize trunkSize : Z)
    (Htrunk : 0 < trunkSize) (Hfs : 0 <= fileSize <= int64_max)
    (Hceil : ceil_div fileSize trunkSize > 32) :
  gcsclient.planParallelUpload fileSize trunkSize
  = (Done (32, fileSize / 32),
     [EvStderr (WarnThreadCap (fileSize / 32 / 2 ^ 20))])
  /\ fileSize / 32 * 32 <= fileSize
  /\ (fileSize = trunkSize * 32 + 1 ->
      fileSize / 32 = trunkSize /\ fileSize / 32 * 32 = fileSize - 1).
Proof.
  split; [apply planParallelUpload_clamped; lia |].
  split.
  - pose proof (Z.mul_div_le fileSize 32 ltac:(lia)). lia.
  - intros ->.
    assert (E : (trunkSize * 32 + 1) / 32 = trunkSize).
    { symmetry. apply (Z.div_unique _ _ _ 1); lia. }
    rewrite E. lia.
Qed.

Lemma C5_clamp_to_32_witness :
  gcsclient.planParallelUpload (150 * MiB * 32 + 1) (150 * MiB)
  = (Done (32, (150 * MiB * 32 + 1) / 32),
     [EvStderr (WarnThreadCap ((150 * MiB * 32 + 1) / 32 / 2 ^ 20))]).
Proof.
  apply (C5_clamp_to_32 (150 * MiB * 32 + 1) (150 * MiB)).
  - unfold MiB; lia.
  - unfold MiB, int64_max; lia.
  - vm_compute. reflexivity.
Defined.

(** C5 as stated fails: for a chunk size of 150 MiB and a file of
    150 MiB * 32 + 1 bytes the plan is 32 threads of 150 MiB, and 32 times
    the recomputed chunk size is below the file size. *)
Lemma C5_counterexample :
  result (gcsclient.planParallelUpload (150 * MiB * 32 + 1) (150 * MiB))
  = Done (32, 150 * MiB)
  /\ ~ (150 * MiB * 32 >= 150 * MiB * 32 + 1).
Proof.
  split; [vm_compute; reflexivity | lia].
Qed.

(** With a threshold of 2^44 megabytes the chunk size in bytes wraps to
    zero and planning divides by zero. *)
Example uploadPlan_chunk_size_wraps_to_zero :
  result (gcsclient.uploadPlan 0 (2 ^ 44))
  = Panic "runtime error: integer divide by zero".
Proof. vm_compute. reflexivity. Qed.




(** ** Runs and their events *)

Section Runs.

Lemma bind_done {A B : Type} (a : A) (es : list Event) (k : A -> M B) :
  bind (Done a, es) k = (result (k a), es ++ events (k a)).
Proof. unfold bind, result, events. destruct (k a); reflexivity. Qed.

Lemma bind_emit {B : Type} (e : Event) (k : unit -> M B) :
  bind (emit e) k = (result (k tt), e :: events (k tt)).
Proof. unfold emit. rewrite bind_done. reflexivity. Qed.

Lemma bind_ret {A B : Type} (a : A) (k : A -> M B) : bind (ret a) k = k a.
Proof. unfold ret. rewrite bind_done. destruct (k a); reflexivity. Qed.

Lemma run_eta {A : Type} (m : M A) : m = (result m, events m).
Proof. destruct m; reflexivity. Qed.

Lemma composeRequests_app (es es' : list Event) :
  composeRequests (es ++ es') = composeRequests es ++ composeRequests es'.
Proof. apply flat_map_app. Qed.

Lemma deleteRequests_app (es es' : list Event) :
  deleteRequests (es ++ es') = deleteRequests es ++ deleteRequests es'.
Proof. apply flat_map_app. Qed.

Lemma insertRequests_app (es es' : list Event) :
  insertRequests (es ++ es') = insertRequests es ++ insertRequests es'.
Proof. apply flat_map_app. Qed.

Lemma received_app (es es' : list Event) :
  received (es ++ es') = received es ++ received es'.
Proof. apply flat_map_app. Qed.

End Runs.

(** ** The loops of the parallel upload *)

Section Loops.

Import gcsclient.

Variable env : Env.
Variables bucketName objectPath objectContentType localPath predefinedACL
  : string.
Variables trunkSize threads : Z.

Lemma setAt_app {A : Type} (done rest : list A) (old x : A) :
  setAt (List.length done) x (done ++ old :: rest)
  = Some (done ++ x :: rest).
Proof.
  induction done as [| d done IH]; simpl; [reflexivity |].
  rewrite IH. reflexivity.
Qed.

Lemma setAt_in_range {A : Type} (i : nat) (x : A) (s : list A) :
  (i < List.length s)%nat ->
  exists s', setAt i x s = Some s' /\ List.length s' = List.length s.
Proof.
  revert i. induction s as [| h t IH]; intros i Hi; simpl in Hi; [lia |].
  destruct i as [| j]; simpl.
  - eexists; split; reflexivity.
  - destruct (IH j ltac:(lia)) as (s' & -> & Hlen).
    eexists; split; [reflexivity | simpl; congruence].
Qed.

(** When every open succeeds, the fan-out launches one worker per chunk
    and fills the compose sources by chunk index. *)
Lemma fanOut_launches (data : list byte) :
  forall (m i : nat) (done : list string) (k : nat)
         (sent : list (option error)),
    (forall j, (i <= j < i + m)%nat -> osOpen env j localPath = inr data) ->
    List.length done = i ->
    fanOut env bucketName objectPath objectContentType localPath
      predefinedACL trunkSize threads (seq i m)
      (done ++ repeat "" (m + k)) sent
    = (Done (inr (done
                  ++ map (fun j => partName objectPath (Z.of_nat j)) (seq i m)
                  ++ repeat "" k,
                  sent
                  ++ map (workerError env bucketName objectPath data
                            trunkSize threads) (seq i m))),
       flat_map (launch bucketName objectPath objectContentType localPath
                   predefinedACL trunkSize threads data) (seq i m)).
Proof.
  induction m as [| m IH]; intros i done k sent Hopen Hlen.
  - simpl. rewrite app_nil_r. reflexivity.
  - assert (Hset : setAt i (partName objectPath (Z.of_nat i))
                     (done ++ "" :: repeat "" (m + k))
                   = Some ((done ++ [partName objectPath (Z.of_nat i)])
                           ++ repeat "" (m + k))).
    { rewrite <- Hlen at 1. rewrite setAt_app, <- app_assoc. reflexivity. }
    cbn [seq fanOut]. rewrite bind_emit.
    rewrite (Hopen i) by lia.
    cbn [Nat.add repeat]. rewrite Hset, bind_emit.
    rewrite IH.
    + cbn [result events fst snd map flat_map launch app].
      unfold workerError at 2. rewrite <- !app_assoc. reflexivity.
    + intros j Hj. apply Hopen. lia.
    + rewrite length_app. simpl. lia.
Qed.

(** Whatever the opens answer, the fan-out returns, and it issues no
    compose, delete or receive. *)
Lemma fanOut_returns :
  forall (todo : list nat) (sourceObjects : list string)
         (sent : list (option error)),
    (forall i, In i todo -> (i < List.length sourceObjects)%nat) ->
    let run := fanOut env bucketName objectPath objectContentType localPath
                 predefinedACL trunkSize threads todo sourceObjects sent in
    (exists r, result run = Done r)
    /\ composeRequests (events run) = []
    /\ deleteRequests (events run) = []
    /\ received (events run) = [].
Proof.
  induction todo as [| i todo IH]; intros sourceObjects sent Hin; cbv zeta.
  - simpl. repeat split; eauto.
  - cbn [fanOut]. rewrite bind_emit.
    destruct (osOpen env i localPath) as [err | data].
    + simpl. repeat split; eauto.
    + destruct (setAt_in_range i (partName objectPath (Z.of_nat i))
                  sourceObjects (Hin i (or_introl eq_refl)))
        as (s' & -> & Hlen).
      rewrite bind_emit.
      match goal with
      | |- context [fanOut _ _ _ _ _ _ _ _ todo s' ?snt] =>
          destruct (IH s' snt) as (Hr & Hc & Hd & Hv)
      end.
      { intros j Hj. rewrite Hlen. apply Hin. right. exact Hj. }
      cbn [result events fst snd composeRequests deleteRequests received
             flat_map app].
      repeat split; assumption.
Qed.

(** The join loop when no received value is an error. *)
Lemma join_all_nil (sent : list (option error)) :
  forall (n k : nat),
    (forall j, (k <= j < k + n)%nat -> nth (recvOrder env j) sent None = None) ->
    join env sent k n
    = (Done None, map (fun j => EvRecv (recvOrder env j)) (seq k n)).
Proof.
  induction n as [| n IH]; intros k Hnil; [reflexivity |].
  cbn [join seq map]. rewrite bind_emit, (Hnil k) by lia.
  rewrite IH by (intros j Hj; apply Hnil; lia). reflexivity.
Qed.

(** The join loop returns at the first error it receives: the values after
    it are not received. *)
Lemma join_first_error (sent : list (option error)) (err : error) :
  forall (j n k : nat),
    (j < n)%nat ->
    (forall i, (k <= i < k + j)%nat -> nth (recvOrder env i) sent None = None) ->
    nth (recvOrder env (k + j)) sent None = Some err ->
    join env sent k n
    = (Done (Some err), map (fun i => EvRecv (recvOrder env i)) (seq k (S j))).
Proof.
  induction j as [| j IH]; intros n k Hlt Hnil Herr;
    destruct n as [| n]; try lia.
  - cbn [join seq map]. rewrite bind_emit.
    rewrite Nat.add_0_r in Herr. rewrite Herr. reflexivity.
  - cbn [join]. rewrite bind_emit, (Hnil k) by lia.
    rewrite (IH n (S k)).
    + reflexivity.
    + lia.
    + intros i Hi. apply Hnil. lia.
    + replace (S k + j)%nat with (k + S j)%nat by lia. exact Herr.
Qed.

(** The cleanup loop deletes every part it is given and always returns. *)
Lemma cleanup_deletes (todo : list nat) :
  cleanup env bucketName objectPath todo
  = (Done tt, flat_map (deletion env bucketName objectPath) todo).
Proof.
  induction todo as [| i todo IH]; [reflexivity |].
  cbn [cleanup flat_map]. rewrite bind_emit. unfold deletion at 1.
  destruct (objectsDelete env bucketName (partName objectPath (Z.of_nat i)));
    [rewrite bind_emit | rewrite bind_ret]; rewrite IH; reflexivity.
Qed.

Lemma deleteRequests_deletions (todo : list nat) :
  deleteRequests (flat_map (deletion env bucketName objectPath) todo)
  = map (fun i => (bucketName, partName objectPath (Z.of_nat i))) todo.
Proof.
  induction todo as [| i todo IH]; [reflexivity |].
  cbn [flat_map map]. rewrite deleteRequests_app, IH. unfold deletion.
  destruct (objectsDelete env bucketName (partName objectPath (Z.of_nat i)));
    reflexivity.
Qed.

End Loops.

(** ** The requests of the fan-out *)

Section Launches.

Import gcsclient.

Variables bucketName objectPath objectContentType localPath predefinedACL
  : string.
Variables trunkSize threads : Z.
Variable data : list byte.

Lemma launches_quiet (todo : list nat) :
  let launches :=
    flat_map (launch bucketName objectPath objectContentType localPath
                predefinedACL trunkSize threads data) todo in
  composeRequests launches = [] /\ deleteRequests launches = []
  /\ received launches = [].
Proof.
  cbv zeta. induction todo as [| i l (Hc & Hd & Hr)];
    [repeat split; reflexivity |].
  cbn [flat_map]. rewrite composeRequests_app, deleteRequests_app,
    received_app, Hc, Hd, Hr. repeat split; reflexivity.
Qed.

Lemma launches_inserts (todo : list nat) :
  insertRequests
    (flat_map (launch bucketName objectPath objectContentType localPath
                 predefinedACL trunkSize threads data) todo)
  = map (fun i => (partName objectPath (Z.of_nat i),
                   chunkReader data trunkSize threads (Z.of_nat i)))
      todo.
Proof.
  induction todo as [| i l IH]; [reflexivity |].
  cbn [flat_map map]. rewrite insertRequests_app, IH. reflexivity.
Qed.

End Launches.

(** ** The parallel branch *)

Section Parallel.

Import gcsclient.

Variable env : Env.
Variables bucketName objectPath objectContentType localPath predefinedACL
  : string.
Variables trunkSize threads : Z.
Variable data : list byte.

Let n : nat := Z.to_nat threads.
Let launches : list Event :=
  flat_map (launch bucketName objectPath objectContentType localPath
              predefinedACL trunkSize threads data) (seq 0 n).
Let sent : list (option error) :=
  map (workerError env bucketName objectPath data trunkSize threads) (seq 0 n).
Let recvs (k : nat) : list Event :=
  map (fun j => EvRecv (recvOrder env j)) (seq 0 k).

Hypothesis Hopen : forall j, (j < n)%nat -> osOpen env j localPath = inr data.

Lemma nth_sent (w : nat) :
  nth w sent None
  = if (w <? n)%nat
    then workerError env bucketName objectPath data trunkSize threads w
    else None.
Proof.
  unfold sent. destruct (Nat.ltb_spec w n) as [Hlt | Hge].
  - rewrite (nth_indep _ None
               (workerError env bucketName objectPath data trunkSize threads 0))
      by (rewrite length_map, length_seq; exact Hlt).
    rewrite map_nth, seq_nth by exact Hlt. reflexivity.
  - apply nth_overflow. rewrite length_map, length_seq. exact Hge.
Qed.

Lemma uploadParallel_launched :
  uploadParallel env bucketName objectPath objectContentType localPath
    predefinedACL threads trunkSize
  = let rest :=
      e <- join env sent 0 n ;;
      match e with
      | Some err => ret (0, Some err)
      | None =>
          emit (EvStderr InfoCompose) ;;
          emit (EvCompose bucketName objectPath (partNames objectPath n)) ;;
          match objectsCompose env bucketName objectPath
                  (partNames objectPath n) with
          | inl err => ret (0, Some err)
          | inr _ =>
              emit (EvStderr InfoCleanup) ;;
              cleanup env bucketName objectPath (seq 0 n) ;;
              ret (0, None)
          end
      end in
    (result rest, launches ++ events rest).
Proof.
  unfold uploadParallel. fold n.
  pose proof (fanOut_launches env bucketName objectPath objectContentType
                localPath predefinedACL trunkSize threads data n 0 [] 0 [])
    as Hfan.
  cbn [app] in Hfan. rewrite Nat.add_0_r in Hfan.
  rewrite Hfan by (intros; try apply Hopen; simpl; try lia; reflexivity).
  rewrite bind_done. cbn [repeat]. rewrite app_nil_r. reflexivity.
Qed.

(** All chunk uploads succeed: every result is received, one compose
    request names the parts in index order, and after a successful compose
    every part is deleted and the upload returns (0, nil). *)
Lemma uploadParallel_all_succeed :
  (forall i, (i < n)%nat ->
     workerError env bucketName objectPath data trunkSize threads i = None) ->
  uploadParallel env bucketName objectPath objectContentType localPath
    predefinedACL threads trunkSize
  = (Done (0, match objectsCompose env bucketName objectPath
                      (partNames objectPath n) with
              | inl err => Some err
              | inr _ => None
              end),
     launches ++ recvs n
     ++ [EvStderr InfoCompose;
         EvCompose bucketName objectPath (partNames objectPath n)]
     ++ match objectsCompose env bucketName objectPath
                (partNames objectPath n) with
        | inl _ => []
        | inr _ =>
            EvStderr InfoCleanup
            :: flat_map (deletion env bucketName objectPath) (seq 0 n)
        end).
Proof.
  intros Hok. rewrite uploadParallel_launched. cbv zeta.
  rewrite join_all_nil.
  2: { intros j _. rewrite nth_sent.
       destruct (Nat.ltb_spec (recvOrder env j) n); auto. }
  rewrite bind_done, !bind_emit.
  destruct (objectsCompose env bucketName objectPath (partNames objectPath n)).
  - reflexivity.
  - rewrite ?bind_emit, cleanup_deletes, ?bind_done.
    cbn [result events fst snd ret app]. rewrite app_nil_r. reflexivity.
Qed.

(** The [j]-th value received is the first error: the upload returns it,
    having received [j + 1] values, and goes no further. *)
Lemma uploadParallel_first_error (j : nat) (err : error) :
  (j < n)%nat ->
  (forall k, (k < j)%nat -> nth (recvOrder env k) sent None = None) ->
  nth (recvOrder env j) sent None = Some err ->
  uploadParallel env bucketName objectPath objectContentType localPath
    predefinedACL threads trunkSize
  = (Done (0, Some err), launches ++ recvs (S j)).
Proof.
  intros Hj Hnil Herr. rewrite uploadParallel_launched. cbv zeta.
  rewrite (join_first_error env sent err j n 0 Hj)
    by (try (intros; apply Hnil; lia); exact Herr).
  rewrite bind_done. cbn [result events fst snd ret].
  rewrite app_nil_r. reflexivity.
Qed.

Lemma recvs_quiet (k : nat) :
  composeRequests (recvs k) = [] /\ deleteRequests (recvs k) = []
  /\ received (recvs k) = map (recvOrder env) (seq 0 k).
Proof.
  unfold recvs. induction (seq 0 k) as [| i l (Hc & Hd & Hr)];
    [repeat split; reflexivity |].
  cbn [map]. change (?e :: ?l) with ([e] ++ l).
  rewrite composeRequests_app, deleteRequests_app, received_app, Hc, Hd, Hr.
  repeat split; reflexivity.
Qed.

End Parallel.

(** ** UploadFile as a whole *)

Section Upload.

Import gcsclient.

Lemma wrap64_range (z : Z) : in_int64 (wrap64 z).
Proof.
  unfold wrap64, in_int64, int64_min, int64_max.
  pose proof (Z.mod_pos_bound (z + 2 ^ 63) (2 ^ 64) ltac:(lia)). lia.
Qed.

Lemma uploadPlan_result (fileSize threshold : Z) :
  result (uploadPlan fileSize threshold)
  = if threshold >? 0 then
      match result (planParallelUpload fileSize (shl64 threshold 20)) with
      | Done p => Done (fst p, snd p, fst p >? 1)
      | Panic msg => Panic msg
      | OutOfFuel => OutOfFuel
      end
    else Done (1, shl64 threshold 20, false).
Proof.
  unfold uploadPlan. destruct (threshold >? 0); [| reflexivity].
  destruct (planParallelUpload fileSize (shl64 threshold 20)) as [[p | msg |] es];
    reflexivity.
Qed.

(** The calls of planning are lines on standard error only. *)
Lemma uploadPlan_quiet (fileSize threshold : Z) :
  composeRequests (events (uploadPlan fileSize threshold)) = []
  /\ deleteRequests (events (uploadPlan fileSize threshold)) = []
  /\ insertRequests (events (uploadPlan fileSize threshold)) = []
  /\ received (events (uploadPlan fileSize threshold)) = [].
Proof.
  unfold uploadPlan, planParallelUpload.
  destruct (threshold >? 0);
    [destruct (unclampedThreads fileSize (shl64 threshold 20)) as [t |];
     [destruct (t >? 32); [destruct (quo64 fileSize 32) |] |] |];
    repeat split; reflexivity.
Qed.

(** A negative chunk size never yields more than one thread. *)
Lemma unclampedThreads_negative (fileSize trunkSize t : Z) :
  0 <= fileSize <= int64_max -> trunkSize < 0 ->
  unclampedThreads fileSize trunkSize = Some t -> t <= 1.
Proof.
  intros Hfs Hneg. unfold unclampedThreads, quo64, rem64.
  destruct (Z.eqb_spec trunkSize 0) as [E | _]; [lia |].
  assert (Hq : - fileSize <= Z.quot fileSize trunkSize <= 0).
  { replace trunkSize with (- (- trunkSize)) by lia.
    rewrite Z.quot_opp_r by lia.
    rewrite Z.quot_div_nonneg by lia.
    pose proof (Z.div_pos fileSize (- trunkSize) ltac:(lia) ltac:(lia)).
    pose proof (Z.div_le_upper_bound fileSize (- trunkSize) fileSize
                  ltac:(lia) ltac:(nia)).
    lia. }
  rewrite (wrap64_small (Z.quot fileSize trunkSize))
    by (unfold in_int64, int64_min, int64_max in *; lia).
  intros H. injection H as <-.
  destruct (negb (Z.rem fileSize trunkSize =? 0)); [| lia].
  rewrite wrap64_small
    by (unfold in_int64, int64_min, int64_max in *; lia).
  lia.
Qed.

(** What a parallel plan guarantees: between 2 and 32 threads, a positive
    chunk size, and every chunk but the last inside the file. *)
Lemma uploadPlan_parallel_inv (fileSize threshold threads trunkSize : Z) :
  0 <= fileSize <= int64_max ->
  result (uploadPlan fileSize threshold) = Done (threads, trunkSize, true) ->
  2 <= threads <= 32 /\ 0 < trunkSize /\ (threads - 1) * trunkSize <= fileSize.
Proof.
  intros Hfs. rewrite uploadPlan_result.
  destruct (Z.gtb_spec threshold 0) as [Hth | Hth]; [| discriminate].
  pose proof (wrap64_range (Z.shiftl threshold 20)) as Hrange.
  fold (shl64 threshold 20) in Hrange.
  destruct (Z.lt_total (shl64 threshold 20) 0) as [Hneg | [Hzero | Hpositive]].
  - unfold planParallelUpload.
    destruct (unclampedThreads fileSize (shl64 threshold 20)) as [t |] eqn:Ht;
      [| discriminate].
    pose proof (unclampedThreads_negative _ _ _ Hfs Hneg Ht) as Hle.
    destruct (Z.gtb_spec t 32); [lia |]. cbn.
    destruct (Z.gtb_spec t 1); [lia | discriminate].
  - unfold planParallelUpload, unclampedThreads, quo64. rewrite Hzero.
    discriminate.
  - pose proof (ceil_div_bounds fileSize (shl64 threshold 20)
                  ltac:(lia) Hpositive) as Hb.
    destruct (Z_gt_le_dec (ceil_div fileSize (shl64 threshold 20)) 32)
      as [Hgt | Hle].
    + rewrite planParallelUpload_clamped by lia. cbn.
      intros H. injection H as <- <-.
      apply ceil_div_gt in Hgt; try lia.
      pose proof (Z.mul_div_le fileSize 32 ltac:(lia)).
      assert (1 <= fileSize / 32) by (apply Z.div_le_lower_bound; lia).
      lia.
    + rewrite planParallelUpload_unclamped by lia. cbn.
      destruct (Z.gtb_spec (ceil_div fileSize (shl64 threshold 20)) 1)
        as [Hpar | Hpar]; [| discriminate].
      intros H. injection H as <- <-.
      repeat split; try lia.
      rewrite ceil_div_split by lia.
      pose proof (Z.div_mod fileSize (shl64 threshold 20) ltac:(lia)).
      pose proof (Z.mod_pos_bound fileSize (shl64 threshold 20) Hpositive).
      destruct (Z.eqb_spec (fileSize mod shl64 threshold 20) 0); nia.
Qed.

Variable env : Env.
Variables bucketName objectPath objectContentType localPath predefinedACL
  : string.

(** [UploadFile] once the bucket and the file have answered: the plan,
    then one of the two branches. *)
Lemma UploadFile_run (threshold : Z) (bucket : storage.Bucket)
    (fileSize threads trunkSize : Z) (parallelMode : bool) :
  bucketsGet env bucketName = inr bucket ->
  osStat env localPath = inr fileSize ->
  result (uploadPlan fileSize threshold)
  = Done (threads, trunkSize, parallelMode) ->
  UploadFile env bucketName objectPath objectContentType localPath
    predefinedACL threshold
  = let branch :=
      if parallelMode then
        uploadParallel env bucketName objectPath objectContentType localPath
          predefinedACL threads trunkSize
      else
        uploadSingle env bucketName objectPath objectContentType localPath
          predefinedACL (versioningEnabled bucket) in
    (result branch,
     [EvBucketsGet bucketName; EvOsStat localPath]
     ++ events (uploadPlan fileSize threshold) ++ events branch).
Proof.
  intros Hbucket Hstat Hplan.
  unfold UploadFile, getBucketVersioning. rewrite bind_emit, Hbucket.
  assert (Hv : match storage.Versioning bucket with
               | Some enabled => ret (enabled, None)
               | None => ret (false, @None error)
               end = ret (versioningEnabled bucket, None)).
  { unfold versioningEnabled. destruct (storage.Versioning bucket); reflexivity. }
  rewrite Hv. cbn [result events ret fst snd].
  rewrite bind_done. cbn [fst snd]. rewrite bind_emit, Hstat.
  rewrite (run_eta (uploadPlan fileSize threshold)), Hplan, bind_done.
  cbn [result events fst snd app]. reflexivity.
Qed.

End Upload.

(** ** Outcomes of the join and of the parallel branch *)

Section Outcomes.

Import gcsclient.

Variable env : Env.
Variables bucketName objectPath objectContentType localPath predefinedACL
  : string.

Lemma result_bind {A B : Type} (m : M A) (k : A -> M B) (a : A) :
  result m = Done a -> result (bind m k) = result (k a).
Proof.
  destruct m as [r es]. unfold result at 1. cbn [fst]. intros ->.
  rewrite bind_done. reflexivity.
Qed.

(** The join loop either receives [n] values, none an error, or stops at
    the first error. *)
Lemma join_cases (sent : list (option error)) :
  forall (n k : nat),
    (join env sent k n
     = (Done None, map (fun j => EvRecv (recvOrder env j)) (seq k n))
     /\ forall j, (k <= j < k + n)%nat ->
                  nth (recvOrder env j) sent None = None)
    \/ exists (j : nat) (err : error),
         (j < n)%nat
         /\ (forall i, (k <= i < k + j)%nat ->
                       nth (recvOrder env i) sent None = None)
         /\ nth (recvOrder env (k + j)) sent None = Some err
         /\ join env sent k n
            = (Done (Some err),
               map (fun i => EvRecv (recvOrder env i)) (seq k (S j))).
Proof.
  induction n as [| n IH]; intros k.
  - left. split; [reflexivity | intros j Hj; lia].
  - destruct (nth (recvOrder env k) sent None) as [err |] eqn:Hk.
    + right. exists 0%nat, err. rewrite Nat.add_0_r.
      split; [lia |]. split; [intros i Hi; lia |]. split; [exact Hk |].
      apply (join_first_error env sent err 0 (S n) k);
        [lia | intros i Hi; lia | rewrite Nat.add_0_r; exact Hk].
    + destruct (IH (S k)) as [[Hrun Hnil] | (j & err & Hj & Hnil & Herr & Hrun)].
      * left. split.
        -- apply join_all_nil. intros j Hj.
           destruct (Nat.eq_dec j k) as [-> | Hne]; [exact Hk |].
           apply Hnil. lia.
        -- intros j Hj.
           destruct (Nat.eq_dec j k) as [-> | Hne]; [exact Hk |].
           apply Hnil. lia.
      * right. exists (S j), err.
        assert (Hnil' : forall i, (k <= i < k + S j)%nat ->
                                  nth (recvOrder env i) sent None = None).
        { intros i Hi.
          destruct (Nat.eq_dec i k) as [-> | Hne]; [exact Hk |].
          apply Hnil. lia. }
        replace (S k + j)%nat with (k + S j)%nat in Herr by lia.
        split; [lia |]. split; [exact Hnil' |]. split; [exact Herr |].
        apply join_first_error; try lia; assumption.
Qed.

(** The parallel branch always returns, and the generation it returns is
    0. *)
Lemma uploadParallel_generation_zero (threads trunkSize : Z) :
  exists err,
    result (uploadParallel env bucketName objectPath objectContentType
              localPath predefinedACL threads trunkSize)
    = Done (0, err).
Proof.
  unfold uploadParallel.
  destruct (fanOut_returns env bucketName objectPath objectContentType
              localPath predefinedACL trunkSize threads
              (seq 0 (Z.to_nat threads)) (repeat "" (Z.to_nat threads)) [])
    as ((r & Hr) & _).
  { intros i Hi. apply in_seq in Hi. rewrite repeat_length. lia. }
  rewrite (result_bind _ _ _ Hr).
  destruct r as [err | [sourceObjects sent]]; [eexists; reflexivity |].
  destruct (join_cases sent (Z.to_nat threads) 0)
    as [[Hrun _] | (j & err & _ & _ & _ & Hrun)];
    rewrite Hrun, bind_done; cbn [result fst]; [| eexists; reflexivity].
  rewrite !bind_emit. cbn [result fst].
  destruct (objectsCompose env bucketName objectPath sourceObjects);
    [eexists; reflexivity |].
  rewrite ?bind_emit, cleanup_deletes, ?bind_done. eexists; reflexivity.
Qed.

Lemma deletions_no_inserts (todo : list nat) :
  insertRequests (flat_map (deletion env bucketName objectPath) todo) = [].
Proof.
  induction todo as [| i todo IH]; [reflexivity |].
  cbn [flat_map]. rewrite insertRequests_app, IH. unfold deletion.
  destruct (objectsDelete env bucketName (partName objectPath (Z.of_nat i)));
    reflexivity.
Qed.

Lemma recvs_no_inserts (l : list nat) :
  insertRequests (map (fun j => EvRecv (recvOrder env j)) l) = [].
Proof. induction l as [| i l IH]; [reflexivity | exact IH]. Qed.

(** The insert requests of the parallel branch are those of the fan-out:
    one per chunk, in index order, each with the bytes of its reader. *)
Lemma uploadParallel_inserts (threads trunkSize : Z) (data : list byte) :
  (forall j, (j < Z.to_nat threads)%nat -> osOpen env j localPath = inr data) ->
  insertRequests
    (events (uploadParallel env bucketName objectPath objectContentType
               localPath predefinedACL threads trunkSize))
  = map (fun i => (partName objectPath (Z.of_nat i),
                   chunkReader data trunkSize threads (Z.of_nat i)))
      (seq 0 (Z.to_nat threads)).
Proof.
  intros Hopen.
  rewrite (uploadParallel_launched env bucketName objectPath
             objectContentType localPath predefinedACL trunkSize threads
             data Hopen).
  cbv zeta. cbn [events snd]. rewrite insertRequests_app, launches_inserts.
  match goal with |- ?l ++ ?r = ?l => enough (r = []) as ->;
    [apply app_nil_r |] end.
  match goal with
  | |- context [join env ?sent 0 ?n] =>
      destruct (join_cases sent n 0)
        as [[Hrun _] | (j & err & _ & _ & _ & Hrun)]
  end; rewrite Hrun, bind_done; cbn [events snd fst result].
  - rewrite !bind_emit. cbn [events snd fst result].
    rewrite insertRequests_app, recvs_no_inserts.
    destruct (objectsCompose env bucketName objectPath _); [reflexivity |].
    rewrite ?bind_emit, cleanup_deletes, ?bind_done.
    cbn [events snd fst result ret app insertRequests flat_map].
    rewrite app_nil_r. apply deletions_no_inserts.
  - cbn [ret events snd]. rewrite app_nil_r. apply recvs_no_inserts.
Qed.

End Outcomes.

(** ** The byte ranges of the chunk readers *)

Section Chunks.

Import gcsclient.

(** Chunks of [t] bytes followed by a last chunk that reads to the end
    make up the file when the last chunk starts inside it. *)
Lemma chunks_concat (t : nat) :
  forall (m : nat) (d : list byte),
    (m * t <= List.length d)%nat ->
    List.concat (map (fun j => if (j =? m)%nat then skipn (j * t) d
                               else firstn t (skipn (j * t) d))
                   (seq 0 (S m)))
    = d.
Proof.
  induction m as [| m IH]; intros d Hlen.
  - simpl. apply app_nil_r.
  - change (seq 0 (S (S m))) with (0%nat :: seq 1 (S m)).
    rewrite <- seq_shift, map_cons, map_map. cbn [List.concat].
    transitivity (firstn t d ++ skipn t d); [| apply firstn_skipn].
    f_equal.
    etransitivity; [| apply (IH (skipn t d))].
    + f_equal. apply map_ext. intros j.
      cbn [Nat.eqb]. rewrite !skipn_skipn.
      replace (S j * t)%nat with (j * t + t)%nat by lia. reflexivity.
    + rewrite length_skipn. simpl in Hlen. lia.
Qed.

Lemma chunkReader_slice (data : list byte) (trunkSize threads : Z) (i : nat) :
  0 < trunkSize -> 1 <= threads ->
  trunkSize * Z.of_nat i <= int64_max ->
  chunkReader data trunkSize threads (Z.of_nat i)
  = if (i =? Z.to_nat threads - 1)%nat
    then skipn (i * Z.to_nat trunkSize) data
    else firstn (Z.to_nat trunkSize) (skipn (i * Z.to_nat trunkSize) data).
Proof.
  intros Ht Hn Hmax. unfold chunkReader, seek, limitReader.
  rewrite wrap64_small
    by (unfold in_int64, int64_min, int64_max in *; nia).
  destruct (Z.ltb_spec (trunkSize * Z.of_nat i) 0) as [Hneg | _]; [nia |].
  replace (Z.to_nat (trunkSize * Z.of_nat i))
    with (i * Z.to_nat trunkSize)%nat by nia.
  destruct (Z.eqb_spec (Z.of_nat i) (threads - 1)) as [E | E];
    destruct (Nat.eqb_spec i (Z.to_nat threads - 1)) as [E' | E'];
    try reflexivity; lia.
Qed.

End Chunks.

(** ** Multi-part uploads *)

Section MultiPart.

Import gcsclient.

Variable env : Env.
Variables bucketName objectPath objectContentType localPath predefinedACL
  : string.
Variable threshold : Z.
Variable data : list byte.
Variables threads trunkSize : Z.

Hypothesis Hupload :
  parallelUpload env bucketName localPath threshold data threads trunkSize.

(** A multi-part upload is the parallel branch after the two queries and
    the planning, which issue no request to the store about objects. *)
Lemma UploadFile_parallel :
  let whole := UploadFile env bucketName objectPath objectContentType
                 localPath predefinedACL threshold in
  let branch := uploadParallel env bucketName objectPath objectContentType
                  localPath predefinedACL threads trunkSize in
  result whole = result branch
  /\ composeRequests (events whole) = composeRequests (events branch)
  /\ deleteRequests (events whole) = deleteRequests (events branch)
  /\ insertRequests (events whole) = insertRequests (events branch)
  /\ received (events whole) = received (events branch)
  /\ exists before, events whole = before ++ events branch.
Proof.
  destruct Hupload as ((bucket & Hbucket) & Hstat & _ & _ & Hplan).
  cbv zeta.
  rewrite (UploadFile_run env bucketName objectPath objectContentType
             localPath predefinedACL threshold bucket _ _ _ _
             Hbucket Hstat Hplan).
  cbv zeta. cbn [result events fst snd].
  destruct (uploadPlan_quiet (Z.of_nat (List.length data)) threshold)
    as (Hc & Hd & Hi & Hr).
  rewrite !composeRequests_app, !deleteRequests_app, !insertRequests_app,
    !received_app, Hc, Hd, Hi, Hr.
  repeat split; try reflexivity.
  eexists. rewrite app_assoc. reflexivity.
Qed.

Lemma parallelUpload_plan :
  2 <= threads <= 32 /\ 0 < trunkSize
  /\ (threads - 1) * trunkSize <= Z.of_nat (List.length data).
Proof.
  destruct Hupload as (_ & _ & Hmax & _ & Hplan).
  apply (uploadPlan_parallel_inv _ threshold); [lia | exact Hplan].
Qed.

End MultiPart.

(** ** What a multi-part upload requests *)

Section Requests.

Import gcsclient.

Variable env : Env.
Variables bucketName objectPath objectContentType localPath predefinedACL
  : string.
Variable threshold : Z.
Variable data : list byte.
Variables threads trunkSize : Z.

Hypothesis Hupload :
  parallelUpload env bucketName localPath threshold data threads trunkSize.

Lemma deletions_quiet (todo : list nat) :
  composeRequests (flat_map (deletion env bucketName objectPath) todo) = []
  /\ received (flat_map (deletion env bucketName objectPath) todo) = [].
Proof.
  induction todo as [| i todo (Hc & Hr)]; [split; reflexivity |].
  cbn [flat_map]. rewrite composeRequests_app, received_app, Hc, Hr.
  unfold deletion.
  destruct (objectsDelete env bucketName (partName objectPath (Z.of_nat i)));
    split; reflexivity.
Qed.

(** All chunk uploads succeed: the whole run of [UploadFile]. *)
Lemma UploadFile_all_succeed :
  (forall i, (i < Z.to_nat threads)%nat ->
     workerError env bucketName objectPath data trunkSize threads i = None) ->
  let whole := UploadFile env bucketName objectPath objectContentType
                 localPath predefinedACL threshold in
  let sources := partNames objectPath (Z.to_nat threads) in
  result whole
  = Done (0, match objectsCompose env bucketName objectPath sources with
             | inl err => Some err
             | inr _ => None
             end)
  /\ composeRequests (events whole) = [(bucketName, objectPath, sources)]
  /\ received (events whole)
     = map (recvOrder env) (seq 0 (Z.to_nat threads))
  /\ (forall composed,
        objectsCompose env bucketName objectPath sources = inr composed ->
        deleteRequests (events whole)
        = map (fun i => (bucketName, partName objectPath (Z.of_nat i)))
            (seq 0 (Z.to_nat threads))
        /\ exists before,
             events whole
             = before
               ++ EvStderr InfoCleanup
               :: flat_map (deletion env bucketName objectPath)
                    (seq 0 (Z.to_nat threads))).
Proof.
  intros Hall.
  destruct (UploadFile_parallel env bucketName objectPath objectContentType
              localPath predefinedACL threshold data threads trunkSize Hupload)
    as (Hres & Hc & Hd & _ & Hr & (before & Hev)).
  cbv zeta. rewrite Hres, Hc, Hd, Hr, Hev.
  assert (Hopen : forall j, (j < Z.to_nat threads)%nat ->
                            osOpen env j localPath = inr data).
  { intros j _. apply Hupload. }
  rewrite (uploadParallel_all_succeed env bucketName objectPath
             objectContentType localPath predefinedACL trunkSize threads
             data Hopen Hall).
  cbn [result events fst snd].
  destruct (launches_quiet bucketName objectPath objectContentType localPath
              predefinedACL trunkSize threads data (seq 0 (Z.to_nat threads)))
    as (Lc & Ld & Lr).
  destruct (recvs_quiet env (Z.to_nat threads)) as (Rc & Rd & Rr).
  destruct (deletions_quiet (seq 0 (Z.to_nat threads))) as (Dc & Dr).
  rewrite !composeRequests_app, !received_app, !deleteRequests_app,
    Lc, Ld, Lr, Rc, Rd, Rr.
  split; [reflexivity |].
  destruct (objectsCompose env bucketName objectPath
              (partNames objectPath (Z.to_nat threads))) as [err | composed].
  - cbn [received composeRequests deleteRequests flat_map app].
    rewrite ?app_nil_r.
    split; [reflexivity |]. split; [reflexivity |].
    intros composed H. discriminate H.
  - change (EvStderr InfoCleanup :: ?l) with ([EvStderr InfoCleanup] ++ l).
    rewrite !composeRequests_app, !received_app, !deleteRequests_app, Dc, Dr.
    rewrite deleteRequests_deletions.
    cbn [received composeRequests deleteRequests flat_map app].
    rewrite ?app_nil_r.
    split; [reflexivity |]. split; [reflexivity |].
    intros _ _. split; [reflexivity |].
    exists (before
            ++ flat_map (launch bucketName objectPath objectContentType
                           localPath predefinedACL trunkSize threads data)
                 (seq 0 (Z.to_nat threads))
            ++ map (fun j => EvRecv (recvOrder env j))
                 (seq 0 (Z.to_nat threads))
            ++ [EvStderr InfoCompose;
                EvCompose bucketName objectPath
                  (partNames objectPath (Z.to_nat threads))]).
    rewrite <- !app_assoc. reflexivity.
Qed.

(** Some chunk upload fails: [UploadFile] returns at the first error it
    receives. *)
Lemma UploadFile_first_error :
  arrivesOnce (recvOrder env) (Z.to_nat threads) ->
  (exists i, (i < Z.to_nat threads)%nat
             /\ workerError env bucketName objectPath data trunkSize
                  threads i <> None) ->
  let whole := UploadFile env bucketName objectPath objectContentType
                 localPath predefinedACL threshold in
  exists (j : nat) (err : error),
    (j < Z.to_nat threads)%nat
    /\ workerError env bucketName objectPath data trunkSize threads
         (recvOrder env j) = Some err
    /\ (forall k, (k < j)%nat ->
          workerError env bucketName objectPath data trunkSize threads
            (recvOrder env k) = None)
    /\ result whole = Done (0, Some err)
    /\ received (events whole) = map (recvOrder env) (seq 0 (S j))
    /\ composeRequests (events whole) = []
    /\ deleteRequests (events whole) = [].
Proof.
  intros [Hinto Honto] (i & Hi & Hfail).
  destruct (UploadFile_parallel env bucketName objectPath objectContentType
              localPath predefinedACL threshold data threads trunkSize Hupload)
    as (Hres & Hc & Hd & _ & Hr & _).
  cbv zeta. rewrite Hres, Hc, Hd, Hr.
  assert (Hopen : forall j, (j < Z.to_nat threads)%nat ->
                            osOpen env j localPath = inr data).
  { intros j _. apply Hupload. }
  pose proof (nth_sent env bucketName objectPath trunkSize threads data)
    as Hnth.
  destruct (join_cases env
              (map (workerError env bucketName objectPath data trunkSize
                      threads) (seq 0 (Z.to_nat threads)))
              (Z.to_nat threads) 0)
    as [[_ Hnil] | (j & err & Hj & Hnil & Herr & _)].
  - exfalso. destruct (Honto i Hi) as (k & Hk & Hki).
    specialize (Hnil k ltac:(lia)). rewrite Hnth, Hki in Hnil.
    destruct (Nat.ltb_spec i (Z.to_nat threads)); [| lia].
    exact (Hfail Hnil).
  - exists j, err. cbn [Nat.add] in Herr.
    assert (Herr' := Herr). rewrite Hnth in Herr'.
    pose proof (Hinto j Hj) as Hwj.
    destruct (Nat.ltb_spec (recvOrder env j) (Z.to_nat threads)); [| lia].
    split; [exact Hj |]. split; [exact Herr' |].
    split.
    { intros k Hk. specialize (Hnil k ltac:(lia)). rewrite Hnth in Hnil.
      pose proof (Hinto k ltac:(lia)).
      destruct (Nat.ltb_spec (recvOrder env k) (Z.to_nat threads)); [| lia].
      exact Hnil. }
    rewrite (uploadParallel_first_error env bucketName objectPath
               objectContentType localPath predefinedACL trunkSize threads
               data Hopen j err Hj)
      by (try exact Herr; intros k Hk; apply Hnil; lia).
    cbn [result events fst snd].
    destruct (launches_quiet bucketName objectPath objectContentType
                localPath predefinedACL trunkSize threads data
                (seq 0 (Z.to_nat threads))) as (Lc & Ld & Lr).
    destruct (recvs_quiet env (S j)) as (Rc & Rd & Rr).
    rewrite composeRequests_app, received_app, deleteRequests_app,
      Lc, Ld, Lr, Rc, Rd, Rr.
    repeat split; reflexivity.
Qed.

(** The bytes each chunk worker reads, as a range of the file. *)
Lemma chunkReader_range (i : nat) :
  (i < Z.to_nat threads)%nat ->
  chunkReader data trunkSize threads (Z.of_nat i)
  = if (i =? Z.to_nat threads - 1)%nat
    then slice data (i * Z.to_nat trunkSize) (List.length data)
    else slice data (i * Z.to_nat trunkSize) ((i + 1) * Z.to_nat trunkSize).
Proof.
  intros Hi.
  destruct (parallelUpload_plan env bucketName localPath threshold data
              threads trunkSize Hupload) as (Hn & Ht & Hlast).
  assert (Hmax : Z.of_nat (List.length data) <= int64_max) by apply Hupload.
  rewrite chunkReader_slice by nia.
  unfold slice.
  destruct (Nat.eqb_spec i (Z.to_nat threads - 1)) as [E | E].
  - symmetry. apply firstn_all2. rewrite length_skipn. lia.
  - f_equal. lia.
Qed.

End Requests.

(** ** The worked example: a file of 1 MiB + 1 bytes, threshold 1 *)

Section Sample.

Lemma twoPartFile_length : Z.of_nat (List.length twoPartFile) = MiB + 1.
Proof.
  unfold twoPartFile. rewrite repeat_length, Z2Nat.id; [reflexivity |].
  unfold MiB. lia.
Qed.

Lemma sample_parallelUpload (versioning : option bool)
    (insertFails deleteFails : string -> bool) (order : nat -> nat)
    (bucketName localPath : string) :
  parallelUpload
    (sampleEnv versioning twoPartFile insertFails deleteFails order)
    bucketName localPath 1 twoPartFile 2 MiB.
Proof.
  unfold parallelUpload, sampleEnv.
  cbn [bucketsGet osStat osOpen]. rewrite twoPartFile_length.
  split; [eexists; reflexivity |]. split; [reflexivity |].
  split; [unfold MiB, int64_max; lia |]. split; [reflexivity |].
  vm_compute. reflexivity.
Qed.

Lemma sample_workerError (versioning : option bool) (data : list byte)
    (insertFails deleteFails : string -> bool) (order : nat -> nat)
    (bucketName objectPath : string) (trunkSize threads : Z) (i : nat) :
  workerError (sampleEnv versioning data insertFails deleteFails order)
    bucketName objectPath data trunkSize threads i
  = if insertFails (gcsclient.partName objectPath (Z.of_nat i))
    then Some "insert failed" else None.
Proof.
  unfold workerError, sampleEnv. cbn [objectsInsert].
  destruct (insertFails (gcsclient.partName objectPath (Z.of_nat i)));
    reflexivity.
Qed.

Lemma swap_arrivesOnce : arrivesOnce (fun k => (1 - k)%nat) 2.
Proof.
  split.
  - intros k Hk. lia.
  - intros i Hi. exists (1 - i)%nat. lia.
Qed.

Lemma id_arrivesOnce (n : nat) : arrivesOnce (fun k => k) n.
Proof.
  split.
  - intros k Hk. exact Hk.
  - intros i Hi. exists i. split; [exact Hi | reflexivity].
Qed.

End Sample.

(** ** Errors of the fan-out *)

(** C1, as the code has it. In a multi-part upload in which some chunk
    upload fails, [UploadFile] returns the first error it receives, at
    once: it has received the results up to and including that error and
    none after it, and it issues no compose and no delete request. *)
Theorem C1_first_error_returned_at_once (env : Env)
    (bucketName objectPath objectContentType localPath predefinedACL : string)
    (threshold : Z) (data : list byte) (threads trunkSize : Z)
    (Hupload : parallelUpload env bucketName localPath threshold data
                 threads trunkSize)
    (Horder : arrivesOnce (recvOrder env) (Z.to_nat threads))
    (Hfails : exists i, (i < Z.to_nat threads)%nat
                        /\ workerError env bucketName objectPath data
                             trunkSize threads i <> None) :
  let whole := gcsclient.UploadFile env bucketName objectPath
                 objectContentType localPath predefinedACL threshold in
  exists (j : nat) (err : error),
    (j < Z.to_nat threads)%nat
    /\ workerError env bucketName objectPath data trunkSize threads
         (recvOrder env j) = Some err
    /\ (forall k, (k < j)%nat ->
          workerError env bucketName objectPath data trunkSize threads
            (recvOrder env k) = None)
    /\ result whole = Done (0, Some err)
    /\ received (events whole) = map (recvOrder env) (seq 0 (S j))
    /\ composeRequests (events whole) = []
    /\ deleteRequests (events whole) = [].
Proof.
  exact (UploadFile_first_error env bucketName objectPath objectContentType
           localPath predefinedACL threshold data threads trunkSize
           Hupload Horder Hfails).
Qed.

Lemma C1_first_error_returned_at_once_witness :
  exists (j : nat) (err : error),
    (j < 2)%nat
    /\ result (gcsclient.UploadFile
                 (sampleEnv None twoPartFile (String.eqb "dir/file.part1")
                    nowhere (fun k => (1 - k)%nat))
                 "bucket" "dir/file" "" "file" "" 1)
       = Done (0, Some err).
Proof.
  destruct (C1_first_error_returned_at_once
              (sampleEnv None twoPartFile (String.eqb "dir/file.part1")
                 nowhere (fun k => (1 - k)%nat))
              "bucket" "dir/file" "" "file" "" 1 twoPartFile 2 MiB
              (sample_parallelUpload _ _ _ _ _ _)
              swap_arrivesOnce)
    as (j & err & Hj & _ & _ & Hres & _).
  - exists 1%nat. split; [simpl; lia |].
    rewrite sample_workerError. vm_compute. discriminate.
  - exists j, err. split; [exact Hj | exact Hres].
Defined.

(** C1 as stated fails: of two chunk uploads the first to report fails,
    and [UploadFile] returns its error having received that one result
    only; the result of the other worker is never received. *)
Lemma C1_counterexample :
  let env := sampleEnv None twoPartFile (String.eqb "dir/file.part0")
               nowhere (fun k => k) in
  let whole := gcsclient.UploadFile env "bucket" "dir/file" "" "file" "" 1 in
  parallelUpload env "bucket" "file" 1 twoPartFile 2 MiB
  /\ result whole = Done (0, Some "insert failed")
  /\ received (events whole) = [0%nat]
  /\ List.length (received (events whole)) <> Z.to_nat 2.
Proof.
  cbv zeta.
  pose proof (sample_parallelUpload None (String.eqb "dir/file.part0")
                nowhere (fun k => k) "bucket" "file") as Hupload.
  destruct (UploadFile_first_error _ "bucket" "dir/file" "" "file" "" 1
              twoPartFile 2 MiB Hupload (id_arrivesOnce _))
    as (j & err & Hj & Herr & Hnil & Hres & Hrecv & _).
  { exists 0%nat. split; [simpl; lia |].
    rewrite sample_workerError. vm_compute. discriminate. }
  assert (j = 0%nat) as ->.
  { destruct j as [| j]; [reflexivity |].
    specialize (Hnil 0%nat ltac:(lia)).
    rewrite sample_workerError in Hnil. vm_compute in Hnil. discriminate Hnil. }
  rewrite sample_workerError in Herr.
  assert (err = "insert failed") as ->.
  { vm_compute in Herr. injection Herr as <-. reflexivity. }
  split; [exact Hupload |]. split; [exact Hres |].
  rewrite Hrecv. split; [reflexivity |].
  simpl. lia.
Qed.

(** ** The byte ranges of a multi-part upload *)

(** C3. In a multi-part upload the chunk workers read, in index order,
    the ranges that start at i * trunkSize: trunkSize bytes for every
    chunk but the last, which lie inside the file, and the rest of the
    file for the last chunk.  The ranges put end to end are the file:
    every byte is read once. *)
Theorem C3_chunks_partition_file (env : Env)
    (bucketName objectPath objectContentType localPath predefinedACL : string)
    (threshold : Z) (data : list byte) (threads trunkSize : Z)
    (Hupload : parallelUpload env bucketName localPath threshold data
                 threads trunkSize) :
  let n := Z.to_nat threads in
  let t := Z.to_nat trunkSize in
  let reads :=
    insertRequests
      (events (gcsclient.UploadFile env bucketName objectPath
                 objectContentType localPath predefinedACL threshold)) in
  (2 <= n)%nat
  /\ map fst reads = partNames objectPath n
  /\ map snd reads
     = map (fun i => if (i =? n - 1)%nat
                     then slice data (i * t) (List.length data)
                     else slice data (i * t) ((i + 1) * t))
         (seq 0 n)
  /\ (forall i, (i < n - 1)%nat -> ((i + 1) * t <= List.length data)%nat)
  /\ ((n - 1) * t <= List.length data)%nat
  /\ List.concat (map snd reads) = data
  /\ Z.of_nat (list_sum (map (fun r => List.length (snd r)) reads))
     = Z.of_nat (List.length data).
Proof.
  cbv zeta.
  destruct (UploadFile_parallel env bucketName objectPath objectContentType
              localPath predefinedACL threshold data threads trunkSize Hupload)
    as (_ & _ & _ & Hins & _).
  destruct (parallelUpload_plan env bucketName localPath threshold data
              threads trunkSize Hupload) as (Hn & Ht & Hlast).
  rewrite Hins.
  rewrite (uploadParallel_inserts env bucketName objectPath objectContentType
             localPath predefinedACL threads trunkSize data)
    by (intros j _; apply Hupload).
  rewrite !map_map. cbn [fst snd].
  assert (Hreaders :
            map (fun i => gcsclient.chunkReader data trunkSize threads
                            (Z.of_nat i)) (seq 0 (Z.to_nat threads))
            = map (fun i => if (i =? Z.to_nat threads - 1)%nat
                            then skipn (i * Z.to_nat trunkSize) data
                            else firstn (Z.to_nat trunkSize)
                                   (skipn (i * Z.to_nat trunkSize) data))
                (seq 0 (Z.to_nat threads))).
  { apply map_ext_in. intros i Hi. apply in_seq in Hi.
    assert (Hmax : Z.of_nat (List.length data) <= int64_max)
      by apply Hupload.
    apply chunkReader_slice; nia. }
  assert (Hconcat :
            List.concat
              (map (fun i => gcsclient.chunkReader data trunkSize threads
                               (Z.of_nat i)) (seq 0 (Z.to_nat threads)))
            = data).
  { rewrite Hreaders.
    pose proof (chunks_concat (Z.to_nat trunkSize) (Z.to_nat threads - 1)
                  data ltac:(nia)) as Hc.
    replace (S (Z.to_nat threads - 1)) with (Z.to_nat threads) in Hc by lia.
    exact Hc. }
  split; [lia |]. split; [reflexivity |].
  split.
  { apply map_ext_in. intros i Hi. apply in_seq in Hi.
    apply (chunkReader_range env bucketName localPath threshold data
             threads trunkSize Hupload). lia. }
  split; [intros i Hi; nia |]. split; [nia |]. split; [exact Hconcat |].
  f_equal.
  transitivity
    (List.length
       (List.concat
          (map (fun i => gcsclient.chunkReader data trunkSize threads
                           (Z.of_nat i)) (seq 0 (Z.to_nat threads)))));
    [| rewrite Hconcat; reflexivity].
  rewrite length_concat, map_map. reflexivity.
Qed.

Lemma C3_chunks_partition_file_witness :
  List.concat
    (map snd
       (insertRequests
          (events (gcsclient.UploadFile
                     (sampleEnv None twoPartFile nowhere nowhere (fun k => k))
                     "bucket" "dir/file" "" "file" "" 1))))
  = twoPartFile.
Proof.
  destruct (C3_chunks_partition_file
              (sampleEnv None twoPartFile nowhere nowhere (fun k => k))
              "bucket" "dir/file" "" "file" "" 1 twoPartFile 2 MiB
              (sample_parallelUpload _ _ _ _ _ _))
    as (_ & _ & _ & _ & _ & Hconcat & _).
  exact Hconcat.
Defined.

(** ** Compose and cleanup *)

(** C8. In a multi-part upload in which all chunk uploads succeed,
    exactly one compose request is issued; its sources are the part names
    objectPath.part0, objectPath.part1, ... up to threads - 1, in index
    order, whatever the order in which the chunk uploads completed. *)
Theorem C8_one_compose_in_plan_order (env : Env)
    (bucketName objectPath objectContentType localPath predefinedACL : string)
    (threshold : Z) (data : list byte) (threads trunkSize : Z)
    (Hupload : parallelUpload env bucketName localPath threshold data
                 threads trunkSize)
    (Hsucceed : forall i, (i < Z.to_nat threads)%nat ->
                  workerError env bucketName objectPath data trunkSize
                    threads i = None) :
  forall order : nat -> nat,
    composeRequests
      (events (gcsclient.UploadFile (withRecvOrder env order) bucketName
                 objectPath objectContentType localPath predefinedACL
                 threshold))
    = [(bucketName, objectPath,
        map (fun i => (objectPath ++ ".part"
                       ++ gcsclient.Itoa (Z.of_nat i))%string)
          (seq 0 (Z.to_nat threads)))].
Proof.
  intros order.
  assert (Hupload' : parallelUpload (withRecvOrder env order) bucketName
                       localPath threshold data threads trunkSize)
    by exact Hupload.
  destruct (UploadFile_all_succeed (withRecvOrder env order) bucketName
              objectPath objectContentType localPath predefinedACL threshold
              data threads trunkSize Hupload' Hsucceed)
    as (_ & Hcompose & _).
  exact Hcompose.
Qed.

Lemma C8_one_compose_in_plan_order_witness :
  composeRequests
    (events (gcsclient.UploadFile
               (withRecvOrder
                  (sampleEnv None twoPartFile nowhere nowhere (fun k => k))
                  (fun k => (1 - k)%nat))
               "bucket" "dir/file" "" "file" "" 1))
  = [("bucket", "dir/file", ["dir/file.part0"; "dir/file.part1"])].
Proof.
  apply (C8_one_compose_in_plan_order
           (sampleEnv None twoPartFile nowhere nowhere (fun k => k))
           "bucket" "dir/file" "" "file" "" 1 twoPartFile 2 MiB
           (sample_parallelUpload _ _ _ _ _ _)).
  intros i Hi. apply sample_workerError.
Defined.

(** C9. After a successful compose in a multi-part upload, one delete
    request is issued for every part, in index order; a delete that fails
    adds a warning and nothing else, the remaining parts are still
    deleted, and [UploadFile] returns generation 0 and no error whatever
    the deletes answer. *)
Theorem C9_cleanup_is_best_effort (env : Env)
    (bucketName objectPath objectContentType localPath predefinedACL : string)
    (threshold : Z) (data : list byte) (threads trunkSize : Z)
    (composed : storage.Object)
    (Hupload : parallelUpload env bucketName localPath threshold data
                 threads trunkSize)
    (Hsucceed : forall i, (i < Z.to_nat threads)%nat ->
                  workerError env bucketName objectPath data trunkSize
                    threads i = None)
    (Hcompose : objectsCompose env bucketName objectPath
                  (partNames objectPath (Z.to_nat threads)) = inr composed) :
  let whole := gcsclient.UploadFile env bucketName objectPath
                 objectContentType localPath predefinedACL threshold in
  result whole = Done (0, None)
  /\ deleteRequests (events whole)
     = map (fun i => (bucketName,
                      gcsclient.partName objectPath (Z.of_nat i)))
         (seq 0 (Z.to_nat threads))
  /\ List.length (deleteRequests (events whole)) = Z.to_nat threads
  /\ exists before,
       events whole
       = before
         ++ EvStderr InfoCleanup
         :: flat_map
              (fun i =>
                 let name := gcsclient.partName objectPath (Z.of_nat i) in
                 EvDelete bucketName name
                 :: match objectsDelete env bucketName name with
                    | Some err => [EvStderr (WarnDeleteFailed name err)]
                    | None => []
                    end)
              (seq 0 (Z.to_nat threads)).
Proof.
  destruct (UploadFile_all_succeed env bucketName objectPath
              objectContentType localPath predefinedACL threshold data
              threads trunkSize Hupload Hsucceed)
    as (Hres & _ & _ & Hdel).
  destruct (Hdel composed Hcompose) as (Hreqs & Hevents).
  cbv zeta. rewrite Hres, Hcompose, Hreqs, length_map, length_seq.
  repeat split; try reflexivity. exact Hevents.
Qed.

Lemma C9_cleanup_is_best_effort_witness :
  let env := sampleEnv None twoPartFile nowhere (fun _ => true) (fun k => k) in
  let whole := gcsclient.UploadFile env "bucket" "dir/file" "" "file" "" 1 in
  result whole = Done (0, None)
  /\ deleteRequests (events whole)
     = [("bucket", "dir/file.part0"); ("bucket", "dir/file.part1")].
Proof.
  cbv zeta.
  destruct (C9_cleanup_is_best_effort
              (sampleEnv None twoPartFile nowhere (fun _ => true) (fun k => k))
              "bucket" "dir/file" "" "file" "" 1 twoPartFile 2 MiB
              (storage.mkObject "dir/file" 0 0)
              (sample_parallelUpload _ _ _ _ _ _))
    as (Hres & Hdel & _).
  - intros i Hi. apply sample_workerError.
  - reflexivity.
  - split; [exact Hres | exact Hdel].
Defined.

(** ** The generation an upload returns *)

(** C10. A multi-part upload returns generation 0 in every case,
    whatever the versioning of the bucket.  A single-part upload whose
    insert succeeds returns the generation of the uploaded object when the
    bucket is versioned, and 0 when it is not; on a bucket that is not
    versioned it returns 0 in every case. *)
Theorem C10_generation_returned (env : Env)
    (bucketName objectPath objectContentType localPath predefinedACL : string)
    (threshold : Z) (bucket : storage.Bucket)
    (fileSize threads trunkSize : Z) (parallelMode : bool)
    (Hbucket : bucketsGet env bucketName = inr bucket)
    (Hstat : osStat env localPath = inr fileSize)
    (Hplan : result (gcsclient.uploadPlan fileSize threshold)
             = Done (threads, trunkSize, parallelMode)) :
  let whole := gcsclient.UploadFile env bucketName objectPath
                 objectContentType localPath predefinedACL threshold in
  (parallelMode = true -> exists err, result whole = Done (0, err))
  /\ (parallelMode = false ->
      forall (data : list byte) (uploaded : storage.Object),
        osOpen env 0%nat localPath = inr data ->
        objectsInsert env bucketName objectPath data = inr uploaded ->
        result whole
        = Done (if versioningEnabled bucket
                then storage.Generation uploaded else 0, None))
  /\ (parallelMode = false -> versioningEnabled bucket = false ->
      exists err, result whole = Done (0, err)).
Proof.
  cbv zeta.
  rewrite (UploadFile_run env bucketName objectPath objectContentType
             localPath predefinedACL threshold bucket fileSize threads
             trunkSize parallelMode Hbucket Hstat Hplan).
  cbv zeta. cbn [result fst].
  split; [| split].
  - intros ->. apply uploadParallel_generation_zero.
  - intros -> data uploaded Hopen Hinsert.
    unfold gcsclient.uploadSingle.
    rewrite bind_emit, Hopen, bind_emit, Hinsert.
    destruct (versioningEnabled bucket); reflexivity.
  - intros -> Hoff. unfold gcsclient.uploadSingle.
    rewrite bind_emit, Hoff.
    destruct (osOpen env 0%nat localPath) as [err | data];
      [eexists; reflexivity |].
    rewrite bind_emit.
    destruct (objectsInsert env bucketName objectPath data);
      eexists; reflexivity.
Qed.

Lemma C10_generation_returned_witness :
  exists err,
    result (gcsclient.UploadFile
              (sampleEnv (Some true) twoPartFile nowhere nowhere (fun k => k))
              "bucket" "dir/file" "" "file" "" 1)
    = Done (0, err).
Proof.
  destruct (C10_generation_returned
              (sampleEnv (Some true) twoPartFile nowhere nowhere (fun k => k))
              "bucket" "dir/file" "" "file" "" 1
              (storage.mkBucket (Some true))
              (Z.of_nat (List.length twoPartFile)) 2 MiB true)
    as (Hparallel & _).
  - reflexivity.
  - reflexivity.
  - apply (sample_parallelUpload (Some true) nowhere nowhere (fun k => k)
             "bucket" "file").
  - apply Hparallel. reflexivity.
Defined.

(** A single-part upload to a versioned bucket returns the generation the
    store assigned. *)
Example single_part_returns_store_generation :
  result (gcsclient.UploadFile
            (sampleEnv (Some true) [x01; x02; x03] nowhere nowhere
               (fun k => k))
            "bucket" "dir/file" "" "file" "" 150)
  = Done (1526400000000000, None).
Proof. vm_compute. reflexivity. Qed.

(** ** Buckets without versioning *)

(** C4. When the bucket is not versioned, [ObjectGenerations] returns
    the error "bucket is not versioned" without listing, and
    [DownloadFile] with a generation other than 0 returns that error
    without a get, a file creation or a download: the bucket query is the
    only request of either. *)
Theorem C4_bucket_not_versioned (env : Env) (fuel : nat)
    (bucketName objectPath : string) (generation : Z) (localPath : string)
    (bucket : storage.Bucket)
    (Hbucket : bucketsGet env bucketName = inr bucket)
    (Hoff : versioningEnabled bucket = false)
    (Hgeneration : generation <> 0) :
  gcsclient.ObjectGenerations env fuel bucketName objectPath
  = (Done ([], Some "bucket is not versioned"), [EvBucketsGet bucketName])
  /\ gcsclient.DownloadFile env bucketName objectPath generation localPath
     = (Done (Some "bucket is not versioned"), [EvBucketsGet bucketName])
  /\ DownloadFile (NewGCSClient env fuel) bucketName objectPath generation
       localPath
     = (Done (Some "bucket is not versioned"), [EvBucketsGet bucketName]).
Proof.
  assert (Hv : gcsclient.getBucketVersioning env bucketName
               = (Done (false, None), [EvBucketsGet bucketName])).
  { unfold gcsclient.getBucketVersioning. rewrite bind_emit, Hbucket.
    unfold versioningEnabled in Hoff.
    destruct (storage.Versioning bucket) as [enabled |];
      [rewrite Hoff |]; reflexivity. }
  assert (Hdownload :
            gcsclient.DownloadFile env bucketName objectPath generation
              localPath
            = (Done (Some "bucket is not versioned"),
               [EvBucketsGet bucketName])).
  { unfold gcsclient.DownloadFile. rewrite Hv, bind_done. cbn [fst snd negb].
    destruct (Z.eqb_spec generation 0) as [E | _]; [contradiction |].
    reflexivity. }
  split; [| split; [exact Hdownload | exact Hdownload]].
  unfold gcsclient.ObjectGenerations. rewrite Hv, bind_done. reflexivity.
Qed.

Lemma C4_bucket_not_versioned_witness :
  gcsclient.DownloadFile
    (sampleEnv (Some false) [] nowhere nowhere (fun k => k))
    "bucket" "dir/version" 1526400000000000 "version"
  = (Done (Some "bucket is not versioned"), [EvBucketsGet "bucket"]).
Proof.
  apply (C4_bucket_not_versioned
           (sampleEnv (Some false) [] nowhere nowhere (fun k => k))
           1 "bucket" "dir/version" 1526400000000000 "version"
           (storage.mkBucket (Some false))).
  - reflexivity.
  - reflexivity.
  - lia.
Defined.

(** ** The order of version tokens *)

Section VersionOrder.

Import versions.

Lemma cmp_refl {A : Type} (cmp : A -> A -> comparison)
    `{TotalComparison A cmp} (a : A) : cmp a a = Eq.
Proof.
  pose proof (cmp_antisym a a) as E. destruct (cmp a a); simpl in E;
    congruence.
Qed.

Lemma cmp_le_trans {A : Type} (cmp : A -> A -> comparison)
    `{TotalComparison A cmp} (a b c : A) :
  cmp a b <> Gt -> cmp b c <> Gt -> cmp a c <> Gt.
Proof.
  intros Hab Hbc.
  destruct (cmp a b) eqn:Eab; [| | congruence].
  - rewrite (cmp_eq_left a b c Eab). exact Hbc.
  - destruct (cmp b c) eqn:Ebc; [| | congruence].
    + pose proof (cmp_antisym b c) as Ecb. rewrite Ebc in Ecb. simpl in Ecb.
      pose proof (cmp_eq_left c b a Ecb) as Eca.
      rewrite (cmp_antisym a b), Eab in Eca. simpl in Eca.
      rewrite (cmp_antisym c a), Eca. simpl. discriminate.
    + rewrite (cmp_lt_trans a b c Eab Ebc). discriminate.
Qed.

Lemma cmp_total {A : Type} (cmp : A -> A -> comparison)
    `{TotalComparison A cmp} (a b : A) : cmp a b = Gt -> cmp b a <> Gt.
Proof.
  intros E. rewrite (cmp_antisym a b), E. simpl. discriminate.
Qed.

#[local] Instance N_compare_total : TotalComparison N.compare.
Proof.
  split.
  - intros a b. apply N.compare_antisym.
  - intros a b c E. apply N.compare_eq in E. subst. reflexivity.
  - intros a b c. rewrite !N.compare_lt_iff. lia.
Qed.

#[local] Instance compareChar_total : TotalComparison compareChar.
Proof.
  unfold compareChar. split.
  - intros a b. apply cmp_antisym.
  - intros a b c E. apply N.compare_eq in E. rewrite E. reflexivity.
  - intros a b c. apply cmp_lt_trans.
Qed.

#[local] Instance lexCompare_total {A : Type} (cmp : A -> A -> comparison)
    `{TotalComparison A cmp} : TotalComparison (lexCompare cmp).
Proof.
  split.
  - induction a as [| x a IH]; destruct b as [| y b]; try reflexivity.
    simpl. rewrite (cmp_antisym x y).
    destruct (cmp x y); simpl; [apply IH | reflexivity | reflexivity].
  - induction a as [| x a IH]; destruct b as [| y b]; intros c E;
      try discriminate; [reflexivity |].
    simpl in E. destruct (cmp x y) eqn:Exy; try discriminate.
    destruct c as [| z c]; [reflexivity |].
    simpl. rewrite (cmp_eq_left x y z Exy).
    destruct (cmp y z); [apply IH; exact E | reflexivity | reflexivity].
  - induction a as [| x a IH]; destruct b as [| y b]; intros c Eab Ebc;
      try discriminate.
    + destruct c; [discriminate | reflexivity].
    + destruct c as [| z c]; [discriminate |].
      simpl in *.
      destruct (cmp x y) eqn:Exy; try discriminate.
      * rewrite (cmp_eq_left x y z Exy).
        destruct (cmp y z); try discriminate; [| reflexivity].
        apply (IH b c); assumption.
      * destruct (cmp y z) eqn:Eyz; try discriminate.
        -- pose proof (cmp_antisym y z) as Ezy. rewrite Eyz in Ezy.
           simpl in Ezy.
           pose proof (cmp_eq_left z y x Ezy) as Ezx.
           rewrite (cmp_antisym x y), Exy in Ezx. simpl in Ezx.
           rewrite (cmp_antisym z x), Ezx. reflexivity.
        -- rewrite (cmp_lt_trans x y z Exy Eyz). reflexivity.
Qed.

#[local] Instance compareSegment_total : TotalComparison compareSegment.
Proof.
  split.
  - intros [m | s] [n | t]; simpl; try reflexivity; apply cmp_antisym.
  - intros [m | s] [n | t] c E; simpl in E; try discriminate;
      destruct c as [k | u]; simpl; try reflexivity;
      apply cmp_eq_left; exact E.
  - intros [m | s] [n | t] [k | u] Eab Ebc; simpl in *;
      try discriminate; try reflexivity;
      eapply cmp_lt_trans; eassumption.
Qed.

Lemma versionLeb_refl (a : string) : versionLeb a a = true.
Proof.
  unfold versionLeb, compareVersions.
  rewrite (cmp_refl (lexCompare compareSegment)). reflexivity.
Qed.

Lemma versionLeb_trans (a b c : string) :
  versionLeb a b = true -> versionLeb b c = true -> versionLeb a c = true.
Proof.
  unfold versionLeb, compareVersions. intros Hab Hbc.
  pose proof (cmp_le_trans (lexCompare compareSegment)
                (segments a) (segments b) (segments c)) as Ht.
  destruct (lexCompare compareSegment (segments a) (segments b));
    try discriminate;
    destruct (lexCompare compareSegment (segments b) (segments c));
    try discriminate;
    destruct (lexCompare compareSegment (segments a) (segments c));
    try reflexivity; exfalso; apply Ht; congruence.
Qed.

Lemma versionLeb_total (a b : string) :
  versionLeb a b = false -> versionLeb b a = true.
Proof.
  unfold versionLeb, compareVersions. intros Hab.
  pose proof (cmp_total (lexCompare compareSegment)
                (segments a) (segments b)) as Ht.
  destruct (lexCompare compareSegment (segments a) (segments b));
    try discriminate.
  destruct (lexCompare compareSegment (segments b) (segments a));
    try reflexivity. exfalso. apply Ht; reflexivity.
Qed.

End VersionOrder.

(** ** Sorting the extractions and picking the last *)

Section Latest.

Import versions.

Lemma insertExtraction_In (e x : Extraction) (l : list Extraction) :
  In x (insertExtraction e l) <-> x = e \/ In x l.
Proof.
  induction l as [| h t IH]; simpl.
  - intuition congruence.
  - destruct (extractionLeb e h); simpl; rewrite ?IH; intuition congruence.
Qed.

Lemma sortExtractions_In (x : Extraction) (l : list Extraction) :
  In x (sortExtractions l) <-> In x l.
Proof.
  induction l as [| h t IH]; simpl; [reflexivity |].
  rewrite insertExtraction_In, IH. intuition congruence.
Qed.

Lemma insertExtraction_ascending (e : Extraction) (l : list Extraction) :
  ascending l -> ascending (insertExtraction e l).
Proof.
  induction l as [| h t IH]; simpl.
  - intros _. split; [intros x [] | exact I].
  - intros [Hh Ht]. destruct (extractionLeb e h) eqn:E; simpl.
    + split; [| split; assumption].
      intros x [<- | Hx]; [exact E |].
      apply (versionLeb_trans _ (VersionNumber h)); [exact E | apply Hh, Hx].
    + split; [| apply IH, Ht].
      intros x Hx. apply insertExtraction_In in Hx as [-> | Hx].
      * apply versionLeb_total. exact E.
      * apply Hh, Hx.
Qed.

Lemma sortExtractions_ascending (l : list Extraction) :
  ascending (sortExtractions l).
Proof.
  induction l as [| h t IH]; simpl; [exact I |].
  apply insertExtraction_ascending, IH.
Qed.

Lemma nth_last_index (l : list Extraction) (d : Extraction) :
  nth (List.length l - 1) l d = last l d.
Proof.
  induction l as [| h t IH]; [reflexivity |].
  destruct t as [| h' t']; [reflexivity |].
  cbn [List.length last] in *. rewrite <- IH.
  replace (S (S (List.length t')) - 1)%nat with (S (S (List.length t') - 1))
    by lia.
  reflexivity.
Qed.

Lemma last_In (l : list Extraction) (d : Extraction) :
  l <> [] -> In (last l d) l.
Proof.
  induction l as [| h t IH]; [congruence |]. intros _.
  destruct t as [| h' t']; [left; reflexivity |].
  right. apply IH. discriminate.
Qed.

Lemma ascending_last_max (l : list Extraction) (d x : Extraction) :
  ascending l -> In x l -> extractionLeb x (last l d) = true.
Proof.
  induction l as [| h t IH]; [intros _ [] |].
  intros [Hh Ht] Hx. destruct t as [| h' t'].
  - destruct Hx as [<- | []]. apply versionLeb_refl.
  - change (last (h :: h' :: t') d) with (last (h' :: t') d).
    destruct Hx as [<- | Hx].
    + apply Hh, last_In. discriminate.
    + apply IH; assumption.
Qed.

Variable FindStringSubmatch : string -> string -> option (list string).

Lemma Extract_found (key pattern : string) (e : Extraction) :
  Extract FindStringSubmatch key pattern = (e, true) -> Path e = key.
Proof.
  unfold Extract.
  destruct (FindStringSubmatch pattern key) as [[| whole [| token rest]] |];
    intros H; inversion H; reflexivity.
Qed.

Lemma extractAll_In (e : Extraction) (keys : list string) (pattern : string) :
  In e (extractAll FindStringSubmatch keys pattern)
  <-> exists key, In key keys
                  /\ Extract FindStringSubmatch key pattern = (e, true).
Proof.
  induction keys as [| k keys IH]; simpl.
  - split; [intros [] | intros (key & [] & _)].
  - destruct (Extract FindStringSubmatch k pattern) as [x found] eqn:E.
    destruct found; simpl; rewrite IH.
    + split.
      * intros [<- | (key & Hk & He)]; [exists k | exists key]; auto.
      * intros (key & [<- | Hk] & He).
        -- left. congruence.
        -- right. exists key; auto.
    + split.
      * intros (key & Hk & He). exists key; auto.
      * intros (key & [<- | Hk] & He); [congruence | exists key; auto].
Qed.

(** [pathToDownload] without a requested path, on a listing [keys]. *)
Lemma pathToDownload_latest (client : GCSClient)
    (request : incommand.InRequest) (keys : list string) (evs : list Event) :
  gcsresource.Path (incommand.Version request) = "" ->
  BucketObjects client (gcsresource.Bucket (incommand.Source request)) ""
  = (Done (keys, None), evs) ->
  let pattern := gcsresource.Regexp (incommand.Source request) in
  let extractions :=
    sortExtractions (extractAll FindStringSubmatch keys pattern) in
  incommand.pathToDownload FindStringSubmatch
    (incommand.mkInCommand client) request
  = (Done (if (List.length extractions =? 0)%nat
           then ("", Some errNoExtractions)
           else (Path (last extractions (mkExtraction "" "")), None)),
     evs).
Proof.
  intros Hpath Hlist. cbv zeta.
  unfold incommand.pathToDownload, GetBucketObjectVersions.
  cbn [incommand.gcsClient].
  rewrite Hpath, Hlist. cbn [String.eqb negb].
  rewrite bind_done. cbn [fst snd result events ret]. rewrite bind_done.
  rewrite nth_last_index.
  destruct (List.length _ =? 0)%nat; cbn [fst snd result events ret];
    rewrite !app_nil_r; reflexivity.
Qed.

End Latest.

(** ** Resolution of the latest version *)

(** C2. In pattern mode without a requested path, [pathToDownload]
    fails with the no-extractions error when no listed key matches the
    pattern, and otherwise returns a listed key whose version token is
    maximal in the numeric-aware order among the tokens of the keys that
    match.  For the candidates file-1.5.6-build.10.tgz,
    file-1.5.6-build.100.tgz and file-1.5.6-build.9.tgz the key returned
    is file-1.5.6-build.100.tgz; digit runs compare as numbers, so build 9
    sorts before build 10 and build 10 before build 100. *)
Theorem C2_latest_is_maximal
    (FindStringSubmatch : string -> string -> option (list string))
    (client : GCSClient) (request : incommand.InRequest)
    (keys : list string) (evs : list Event)
    (Hpath : gcsresource.Path (incommand.Version request) = "")
    (Hlist : BucketObjects client
               (gcsresource.Bucket (incommand.Source request)) ""
             = (Done (keys, None), evs)) :
  let pattern := gcsresource.Regexp (incommand.Source request) in
  let run := incommand.pathToDownload FindStringSubmatch
               (incommand.mkInCommand client) request in
  ((forall key, In key keys ->
      snd (versions.Extract FindStringSubmatch key pattern) = false) ->
   result run
   = Done ("", Some "no extractions could be found - is your regexp correct?"))
  /\ ((exists key, In key keys
                   /\ snd (versions.Extract FindStringSubmatch key pattern)
                      = true) ->
      exists latest : versions.Extraction,
        In (versions.Path latest) keys
        /\ versions.Extract FindStringSubmatch (versions.Path latest) pattern
           = (latest, true)
        /\ result run = Done (versions.Path latest, None)
        /\ forall key e,
             In key keys ->
             versions.Extract FindStringSubmatch key pattern = (e, true) ->
             versions.compareVersions (versions.VersionNumber e)
               (versions.VersionNumber latest) <> Gt)
  /\ result
       (incommand.pathToDownload regexp.FindStringSubmatch
          (incommand.mkInCommand
             (FakeGCSClient ["file-1.5.6-build.10.tgz";
                             "file-1.5.6-build.100.tgz";
                             "file-1.5.6-build.9.tgz"]))
          (incommand.mkInRequest
             (gcsresource.mkSource "bucket-name" "file-(.*).tgz" "")
             (gcsresource.mkVersion "" "")))
     = Done ("file-1.5.6-build.100.tgz", None)
  /\ versions.compareVersions "1.5.6-build.9" "1.5.6-build.10" = Lt
  /\ versions.compareVersions "1.5.6-build.10" "1.5.6-build.100" = Lt.
Proof.
  cbv zeta.
  rewrite (pathToDownload_latest FindStringSubmatch client request keys evs
             Hpath Hlist).
  cbv zeta. cbn [result fst].
  set (pattern := gcsresource.Regexp (incommand.Source request)).
  set (found := versions.extractAll FindStringSubmatch keys pattern).
  split; [| split; [| repeat split; vm_compute; reflexivity]].
  - intros Hnone.
    assert (Hempty : found = []).
    { destruct found as [| e l] eqn:E; [reflexivity |]. exfalso.
      assert (Hin : In e found) by (rewrite E; left; reflexivity).
      apply extractAll_In in Hin as (key & Hkey & He).
      specialize (Hnone key Hkey). fold pattern in He. rewrite He in Hnone.
      discriminate Hnone. }
    rewrite Hempty. reflexivity.
  - intros (key & Hkey & Hfound).
    destruct (versions.Extract FindStringSubmatch key pattern) as [e0 b] eqn:E0.
    cbn [snd] in Hfound. subst b.
    assert (Hin0 : In e0 (versions.sortExtractions found)).
    { apply sortExtractions_In, extractAll_In. exists key. auto. }
    assert (Hne : versions.sortExtractions found <> []).
    { intros Hnil. rewrite Hnil in Hin0. exact Hin0. }
    destruct (List.length (versions.sortExtractions found) =? 0)%nat eqn:Elen.
    { apply Nat.eqb_eq, length_zero_iff_nil in Elen. contradiction. }
    set (latest := last (versions.sortExtractions found)
                     (versions.mkExtraction "" "")).
    pose proof (last_In (versions.sortExtractions found)
                  (versions.mkExtraction "" "") Hne) as Hlast.
    fold latest in Hlast.
    apply sortExtractions_In, extractAll_In in Hlast as (k & Hk & He).
    pose proof (Extract_found FindStringSubmatch k pattern latest He) as Hp.
    exists latest. rewrite Hp.
    split; [exact Hk |]. split; [exact He |]. split; [reflexivity |].
    intros key' e Hkey' He'.
    assert (Hin : In e (versions.sortExtractions found)).
    { apply sortExtractions_In, extractAll_In. exists key'. auto. }
    pose proof (ascending_last_max (versions.sortExtractions found)
                  (versions.mkExtraction "" "") e
                  (sortExtractions_ascending found) Hin) as Hleb.
    fold latest in Hleb.
    unfold versions.extractionLeb, versions.versionLeb in Hleb.
    intros Hgt. rewrite Hgt in Hleb. discriminate Hleb.
Qed.

Lemma C2_latest_is_maximal_witness :
  exists latest : versions.Extraction,
    versions.Path latest = "folder/file-3.53.tgz"
    /\ result
         (incommand.pathToDownload regexp.FindStringSubmatch
            (incommand.mkInCommand
               (FakeGCSClient ["folder/file-0.0.1.tgz";
                               "folder/file-3.53.tgz";
                               "folder/file-2.33.333.tgz";
                               "folder/file-2.4.3.tgz"]))
            (incommand.mkInRequest
               (gcsresource.mkSource "bucket-name" "folder/file-(.*).tgz" "")
               (gcsresource.mkVersion "" "")))
       = Done (versions.Path latest, None).
Proof.
  destruct (C2_latest_is_maximal regexp.FindStringSubmatch
              (FakeGCSClient ["folder/file-0.0.1.tgz";
                              "folder/file-3.53.tgz";
                              "folder/file-2.33.333.tgz";
                              "folder/file-2.4.3.tgz"])
              (incommand.mkInRequest
                 (gcsresource.mkSource "bucket-name" "folder/file-(.*).tgz" "")
                 (gcsresource.mkVersion "" ""))
              ["folder/file-0.0.1.tgz"; "folder/file-3.53.tgz";
               "folder/file-2.33.333.tgz"; "folder/file-2.4.3.tgz"]
              [] eq_refl eq_refl)
    as (_ & Hlatest & _).
  destruct Hlatest as (latest & _ & _ & Hrun & _).
  - exists "folder/file-0.0.1.tgz". split; [left; reflexivity |].
    vm_compute. reflexivity.
  - exists latest. split; [| exact Hrun].
    vm_compute in Hrun. injection Hrun as Hp. symmetry. exact Hp.
Defined.

(** * Further properties of the storage client *)

(** ** The planner on every input *)

Section PlannerBounds.

Import gcsclient.

Lemma shl64_megabytes (threshold : Z) :
  0 <= threshold < 2 ^ 43 -> shl64 threshold 20 = threshold * MiB.
Proof.
  intros H. unfold shl64, MiB. rewrite Z.shiftl_mul_pow2 by lia.
  apply wrap64_small. unfold in_int64, int64_min, int64_max. lia.
Qed.

(** The plan for a file and a positive chunk size. *)
Lemma planParallelUpload_cases (fileSize trunkSize : Z) :
  0 <= fileSize <= int64_max -> 0 < trunkSize ->
  exists threads chunk,
    result (planParallelUpload fileSize trunkSize) = Done (threads, chunk)
    /\ ((ceil_div fileSize trunkSize <= 32
         /\ threads = ceil_div fileSize trunkSize /\ chunk = trunkSize)
        \/ (ceil_div fileSize trunkSize > 32
            /\ threads = 32 /\ chunk = fileSize / 32)).
Proof.
  intros Hfs Ht.
  destruct (Z_gt_le_dec (ceil_div fileSize trunkSize) 32) as [Hgt | Hle].
  - rewrite planParallelUpload_clamped by lia.
    do 2 eexists. split; [reflexivity |]. right. auto.
  - rewrite planParallelUpload_unclamped by lia.
    do 2 eexists. split; [reflexivity |]. left. auto.
Qed.

End PlannerBounds.

(** X1. [planParallelUpload] divides by the chunk size it is given: it
    panics when that is 0, whatever the file size, and returns a plan for
    every other chunk size. *)
Theorem X1_plan_panics_only_on_zero_chunk (fileSize trunkSize : Z) :
  (trunkSize = 0 ->
   gcsclient.planParallelUpload fileSize trunkSize
   = (Panic "runtime error: integer divide by zero", []))
  /\ (trunkSize <> 0 ->
      exists plan,
        result (gcsclient.planParallelUpload fileSize trunkSize) = Done plan).
Proof.
  unfold gcsclient.planParallelUpload, gcsclient.unclampedThreads,
    quo64, rem64.
  split.
  - intros ->. reflexivity.
  - intros Hne. destruct (Z.eqb_spec trunkSize 0) as [E | _]; [contradiction |].
    cbn [Z.eqb].
    match goal with |- context [if ?c >? 32 then _ else _] =>
      destruct (c >? 32) end; eexists; reflexivity.
Qed.

(** Bounds of the plan for a file size in range and a positive chunk
    size. *)
Lemma plan_bounds (fileSize trunkSize : Z)
    (Hfs : 0 <= fileSize <= int64_max) (Htrunk : 0 < trunkSize) :
  exists threads chunk,
    result (gcsclient.planParallelUpload fileSize trunkSize)
    = Done (threads, chunk)
    /\ 0 <= threads <= 32
    /\ (threads = 0 <-> fileSize = 0)
    /\ trunkSize <= chunk
    /\ (0 < threads ->
        (threads - 1) * chunk < fileSize
        /\ fileSize - (threads - 1) * chunk <= chunk + 31).
Proof.
  destruct (planParallelUpload_cases fileSize trunkSize Hfs Htrunk)
    as (threads & chunk & Hrun & Hcase).
  exists threads, chunk. split; [exact Hrun |].
  pose proof (ceil_div_bounds fileSize trunkSize ltac:(lia) Htrunk) as Hb.
  pose proof (ceil_div_split fileSize trunkSize ltac:(lia) Htrunk) as Hs.
  pose proof (Z.div_mod fileSize trunkSize ltac:(lia)) as Hdm.
  pose proof (Z.mod_pos_bound fileSize trunkSize Htrunk) as Hr.
  pose proof (Z.div_pos fileSize trunkSize ltac:(lia) Htrunk) as Hq.
  destruct Hcase as [(Hle & -> & ->) | (Hgt & -> & ->)].
  - destruct (Z.eqb_spec (fileSize mod trunkSize) 0) as [E | E].
    + repeat split; try lia; try nia.
    + repeat split; try lia; try nia.
  - apply ceil_div_gt in Hgt; try lia.
    pose proof (Z.div_mod fileSize 32 ltac:(lia)) as Hdm32.
    pose proof (Z.mod_pos_bound fileSize 32 ltac:(lia)) as Hr32.
    assert (trunkSize <= fileSize / 32)
      by (apply Z.div_le_lower_bound; lia).
    repeat split; try lia.
Qed.

(** X2. For a file size in range and a positive chunk size the plan has
    at most 32 threads and none only for an empty file; its chunk size is
    never below the one asked for; every chunk before the last fits in the
    file with at least one byte left for the last, and the last chunk
    exceeds the chunk size by at most 31 bytes. *)
Theorem X2_plan_bounds (fileSize trunkSize : Z)
    (Hfs : 0 <= fileSize <= int64_max) (Htrunk : 0 < trunkSize) :
  exists threads chunk,
    result (gcsclient.planParallelUpload fileSize trunkSize)
    = Done (threads, chunk)
    /\ 0 <= threads <= 32
    /\ (threads = 0 <-> fileSize = 0)
    /\ trunkSize <= chunk
    /\ (0 < threads ->
        (threads - 1) * chunk < fileSize
        /\ fileSize - (threads - 1) * chunk <= chunk + 31).
Proof. exact (plan_bounds fileSize trunkSize Hfs Htrunk). Qed.

Lemma X2_plan_bounds_witness :
  exists threads chunk,
    result (gcsclient.planParallelUpload (33 * MiB + 5) MiB)
    = Done (threads, chunk)
    /\ 0 <= threads <= 32.
Proof.
  destruct (X2_plan_bounds (33 * MiB + 5) MiB)
    as (threads & chunk & Hrun & Hbound & _).
  - unfold MiB, int64_max. lia.
  - unfold MiB. lia.
  - exists threads, chunk. split; [exact Hrun | exact Hbound].
Defined.

(** Parallel mode is on exactly for a file larger than the threshold. *)
Lemma uploadPlan_mode (fileSize threshold : Z)
    (Hfs : 0 <= fileSize <= int64_max) (Hthreshold : 0 < threshold < 2 ^ 43) :
  exists threads chunk,
    result (gcsclient.uploadPlan fileSize threshold)
    = Done (threads, chunk, fileSize >? threshold * MiB).
Proof.
  rewrite uploadPlan_result.
  destruct (Z.gtb_spec threshold 0) as [_ | H]; [| lia].
  rewrite shl64_megabytes by lia.
  assert (Ht : 0 < threshold * MiB) by (unfold MiB; lia).
  destruct (planParallelUpload_cases fileSize (threshold * MiB) Hfs Ht)
    as (threads & chunk & -> & Hcase).
  exists threads, chunk. cbn [fst snd]. do 2 f_equal.
  pose proof (ceil_div_gt fileSize (threshold * MiB) 1
                ltac:(lia) Ht ltac:(lia)) as Hone.
  pose proof (ceil_div_gt fileSize (threshold * MiB) 32
                ltac:(lia) Ht ltac:(lia)) as Hcap.
  destruct Hcase as [(Hle & -> & ->) | (Hgt & -> & ->)].
  - destruct (Z.gtb_spec (ceil_div fileSize (threshold * MiB)) 1);
      destruct (Z.gtb_spec fileSize (threshold * MiB)); try reflexivity; lia.
  - destruct (Z.gtb_spec fileSize (threshold * MiB)); [reflexivity | lia].
Qed.

(** X3. With a threshold between 1 and 2^43 - 1 megabytes, [UploadFile]
    plans a parallel upload exactly when the file is larger than the
    threshold: a file of at most threshold * 2^20 bytes goes up in one
    part. *)
Theorem X3_parallel_iff_larger_than_threshold (fileSize threshold : Z)
    (Hfs : 0 <= fileSize <= int64_max) (Hthreshold : 0 < threshold < 2 ^ 43) :
  exists threads chunk,
    result (gcsclient.uploadPlan fileSize threshold)
    = Done (threads, chunk, fileSize >? threshold * MiB).
Proof. exact (uploadPlan_mode fileSize threshold Hfs Hthreshold). Qed.

Lemma X3_parallel_iff_larger_than_threshold_witness :
  exists threads chunk,
    result (gcsclient.uploadPlan (150 * MiB) 150)
    = Done (threads, chunk, false).
Proof.
  destruct (X3_parallel_iff_larger_than_threshold (150 * MiB) 150)
    as (threads & chunk & Hrun).
  - unfold MiB, int64_max. lia.
  - lia.
  - exists threads, chunk. exact Hrun.
Defined.

(** ** Single-part uploads *)

Section SinglePart.

Import gcsclient.

Variable env : Env.
Variables bucketName objectPath objectContentType localPath predefinedACL
  : string.

(** The single-part branch once the file opens: one insert of the whole
    file under the destination name. *)
Lemma uploadSingle_opened (versioned : bool) (data : list byte) :
  osOpen env 0%nat localPath = inr data ->
  uploadSingle env bucketName objectPath objectContentType localPath
    predefinedACL versioned
  = (Done (match objectsInsert env bucketName objectPath data with
           | inl err => (0, Some err)
           | inr uploaded =>
               (if versioned then storage.Generation uploaded else 0, None)
           end),
     [EvOsOpen localPath;
      EvInsert bucketName objectPath objectContentType predefinedACL data]).
Proof.
  intros Hopen. unfold uploadSingle. rewrite bind_emit, Hopen, bind_emit.
  destruct (objectsInsert env bucketName objectPath data) as [err | uploaded];
    [reflexivity |].
  destruct versioned; reflexivity.
Qed.

(** A plan that is not parallel: [UploadFile] is the two queries, the
    lines of planning and the single insert. *)
Lemma UploadFile_single (threshold : Z) (bucket : storage.Bucket)
    (fileSize threads trunkSize : Z) (data : list byte) :
  bucketsGet env bucketName = inr bucket ->
  osStat env localPath = inr fileSize ->
  result (uploadPlan fileSize threshold) = Done (threads, trunkSize, false) ->
  osOpen env 0%nat localPath = inr data ->
  let whole := UploadFile env bucketName objectPath objectContentType
                 localPath predefinedACL threshold in
  result whole
  = Done (match objectsInsert env bucketName objectPath data with
          | inl err => (0, Some err)
          | inr uploaded =>
              (if versioningEnabled bucket
               then storage.Generation uploaded else 0, None)
          end)
  /\ events whole
     = [EvBucketsGet bucketName; EvOsStat localPath]
       ++ events (uploadPlan fileSize threshold)
       ++ [EvOsOpen localPath;
           EvInsert bucketName objectPath objectContentType predefinedACL
             data]
  /\ insertRequests (events whole) = [(objectPath, data)]
  /\ composeRequests (events whole) = []
  /\ deleteRequests (events whole) = []
  /\ received (events whole) = [].
Proof.
  intros Hbucket Hstat Hplan Hopen. cbv zeta.
  rewrite (UploadFile_run env bucketName objectPath objectContentType
             localPath predefinedACL threshold bucket fileSize threads
             trunkSize false Hbucket Hstat Hplan).
  cbv zeta. rewrite (uploadSingle_opened _ data Hopen).
  cbn [result events fst snd].
  destruct (uploadPlan_quiet fileSize threshold) as (Hc & Hd & Hi & Hr).
  rewrite !insertRequests_app, !composeRequests_app, !deleteRequests_app,
    !received_app, Hc, Hd, Hi, Hr.
  repeat split; reflexivity.
Qed.

End SinglePart.

(** X4. With a threshold of 0 or below, [UploadFile] never splits the
    file, whatever its size: after the bucket query and the stat it opens
    the file once and issues one insert of the whole file under the
    destination name, writes nothing about threads, and issues no
    compose. *)
Theorem X4_nonpositive_threshold_uploads_in_one_part (env : Env)
    (bucketName objectPath objectContentType localPath predefinedACL : string)
    (threshold : Z) (bucket : storage.Bucket) (fileSize : Z)
    (data : list byte)
    (Hthreshold : threshold <= 0)
    (Hbucket : bucketsGet env bucketName = inr bucket)
    (Hstat : osStat env localPath = inr fileSize)
    (Hopen : osOpen env 0%nat localPath = inr data) :
  let whole := gcsclient.UploadFile env bucketName objectPath
                 objectContentType localPath predefinedACL threshold in
  events whole
  = [EvBucketsGet bucketName; EvOsStat localPath; EvOsOpen localPath;
     EvInsert bucketName objectPath objectContentType predefinedACL data]
  /\ result whole
     = Done (match objectsInsert env bucketName objectPath data with
             | inl err => (0, Some err)
             | inr uploaded =>
                 (if versioningEnabled bucket
                  then storage.Generation uploaded else 0, None)
             end).
Proof.
  assert (Hplan : gcsclient.uploadPlan fileSize threshold
                  = (Done (1, shl64 threshold 20, false), [])).
  { unfold gcsclient.uploadPlan.
    destruct (Z.gtb_spec threshold 0) as [H | _]; [lia | reflexivity]. }
  destruct (UploadFile_single env bucketName objectPath objectContentType
              localPath predefinedACL threshold bucket fileSize 1
              (shl64 threshold 20) data Hbucket Hstat
              ltac:(rewrite Hplan; reflexivity) Hopen)
    as (Hres & Hev & _).
  cbv zeta. rewrite Hres, Hev, Hplan. split; reflexivity.
Qed.

Lemma X4_nonpositive_threshold_uploads_in_one_part_witness :
  events (gcsclient.UploadFile
            (sampleEnv None twoPartFile nowhere nowhere (fun k => k))
            "bucket" "dir/file" "" "file" "" (-1))
  = [EvBucketsGet "bucket"; EvOsStat "file"; EvOsOpen "file";
     EvInsert "bucket" "dir/file" "" "" twoPartFile].
Proof.
  destruct (X4_nonpositive_threshold_uploads_in_one_part
              (sampleEnv None twoPartFile nowhere nowhere (fun k => k))
              "bucket" "dir/file" "" "file" "" (-1)
              (storage.mkBucket None) (Z.of_nat (List.length twoPartFile))
              twoPartFile)
    as (Hev & _).
  - lia.
  - reflexivity.
  - reflexivity.
  - reflexivity.
  - exact Hev.
Defined.

(** X5. With a threshold between 1 and 2^43 - 1 megabytes, a file of at
    most threshold * 2^20 bytes is uploaded in one part: one insert of the
    whole file under the destination name, no part object, no compose and
    no delete. *)
Theorem X5_file_within_threshold_uploads_in_one_part (env : Env)
    (bucketName objectPath objectContentType localPath predefinedACL : string)
    (threshold : Z) (bucket : storage.Bucket) (fileSize : Z)
    (data : list byte)
    (Hthreshold : 0 < threshold < 2 ^ 43)
    (Hfits : 0 <= fileSize <= threshold * MiB)
    (Hbucket : bucketsGet env bucketName = inr bucket)
    (Hstat : osStat env localPath = inr fileSize)
    (Hopen : osOpen env 0%nat localPath = inr data) :
  let whole := gcsclient.UploadFile env bucketName objectPath
                 objectContentType localPath predefinedACL threshold in
  insertRequests (events whole) = [(objectPath, data)]
  /\ composeRequests (events whole) = []
  /\ deleteRequests (events whole) = []
  /\ result whole
     = Done (match objectsInsert env bucketName objectPath data with
             | inl err => (0, Some err)
             | inr uploaded =>
                 (if versioningEnabled bucket
                  then storage.Generation uploaded else 0, None)
             end).
Proof.
  assert (Hmax : 0 <= fileSize <= int64_max)
    by (unfold MiB, int64_max in *; lia).
  destruct (uploadPlan_mode fileSize threshold Hmax Hthreshold)
    as (threads & chunk & Hplan).
  destruct (Z.gtb_spec fileSize (threshold * MiB)) as [H | _]; [lia |].
  destruct (UploadFile_single env bucketName objectPath objectContentType
              localPath predefinedACL threshold bucket fileSize threads
              chunk data Hbucket Hstat Hplan Hopen)
    as (Hres & _ & Hins & Hc & Hd & _).
  cbv zeta. repeat split; assumption.
Qed.

Lemma X5_file_within_threshold_uploads_in_one_part_witness :
  insertRequests
    (events (gcsclient.UploadFile
               (sampleEnv None twoPartFile nowhere nowhere (fun k => k))
               "bucket" "dir/file" "" "file" "" 150))
  = [("dir/file", twoPartFile)].
Proof.
  destruct (X5_file_within_threshold_uploads_in_one_part
              (sampleEnv None twoPartFile nowhere nowhere (fun k => k))
              "bucket" "dir/file" "" "file" "" 150
              (storage.mkBucket None) (Z.of_nat (List.length twoPartFile))
              twoPartFile)
    as (Hins & _).
  - lia.
  - rewrite twoPartFile_length. unfold MiB. lia.
  - reflexivity.
  - reflexivity.
  - reflexivity.
  - exact Hins.
Defined.

(** X6. [UploadFile] gives up before touching the file or the store's
    objects when its first queries fail: a failed bucket query is its only
    request, and a failed stat follows the bucket query and nothing else
    does; either error is returned with generation 0. *)
Theorem X6_upload_stops_at_failed_query (env : Env)
    (bucketName objectPath objectContentType localPath predefinedACL : string)
    (threshold : Z) :
  (forall err,
     bucketsGet env bucketName = inl err ->
     gcsclient.UploadFile env bucketName objectPath objectContentType
       localPath predefinedACL threshold
     = (Done (0, Some err), [EvBucketsGet bucketName]))
  /\ (forall bucket err,
        bucketsGet env bucketName = inr bucket ->
        osStat env localPath = inl err ->
        gcsclient.UploadFile env bucketName objectPath objectContentType
          localPath predefinedACL threshold
        = (Done (0, Some err), [EvBucketsGet bucketName; EvOsStat localPath])).
Proof.
  unfold gcsclient.UploadFile, gcsclient.getBucketVersioning. split.
  - intros err Hbucket. rewrite bind_emit, Hbucket. reflexivity.
  - intros bucket err Hbucket Hstat. rewrite bind_emit, Hbucket.
    destruct (storage.Versioning bucket);
      cbn [ret result events fst snd]; rewrite bind_done; cbn [fst snd];
      rewrite bind_emit, Hstat; reflexivity.
Qed.

(** ** Multi-part uploads that stop early *)

Section StopsEarly.

Import gcsclient.

Variable env : Env.
Variables bucketName objectPath objectContentType localPath predefinedACL
  : string.
Variables trunkSize threads : Z.
Variable data : list byte.

(** The fan-out when the open of chunk [start + i] fails after the opens
    before it succeeded: the workers before it are launched, and the
    failed open is the last event. *)
Lemma fanOut_open_fails (err : error) :
  forall (i start m : nat) (done : list string) (k : nat)
         (sent : list (option error)),
    (i < m)%nat ->
    (forall j, (start <= j < start + i)%nat ->
               osOpen env j localPath = inr data) ->
    osOpen env (start + i) localPath = inl err ->
    List.length done = start ->
    fanOut env bucketName objectPath objectContentType localPath
      predefinedACL trunkSize threads (seq start m)
      (done ++ repeat "" (m + k)) sent
    = (Done (inl err),
       flat_map (launch bucketName objectPath objectContentType localPath
                   predefinedACL trunkSize threads data) (seq start i)
       ++ [EvOsOpen localPath]).
Proof.
  induction i as [| i IH]; intros start m done k sent Hlt Hopen Hfail Hlen;
    destruct m as [| m]; try lia.
  - cbn [seq fanOut]. rewrite bind_emit.
    rewrite Nat.add_0_r in Hfail. rewrite Hfail. reflexivity.
  - assert (Hset : setAt start (partName objectPath (Z.of_nat start))
                     (done ++ "" :: repeat "" (m + k))
                   = Some ((done ++ [partName objectPath (Z.of_nat start)])
                           ++ repeat "" (m + k))).
    { rewrite <- Hlen at 1. rewrite setAt_app, <- app_assoc. reflexivity. }
    cbn [seq fanOut]. rewrite bind_emit.
    rewrite (Hopen start) by lia.
    cbn [Nat.add repeat]. rewrite Hset, bind_emit.
    rewrite (IH (S start) m).
    + cbn [result events fst snd flat_map launch app]. reflexivity.
    + lia.
    + intros j Hj. apply Hopen. lia.
    + replace (S start + i)%nat with (start + S i)%nat by lia. exact Hfail.
    + rewrite length_app. simpl. lia.
Qed.

Lemma uploadParallel_open_fails (i : nat) (err : error) :
  (i < Z.to_nat threads)%nat ->
  (forall j, (j < i)%nat -> osOpen env j localPath = inr data) ->
  osOpen env i localPath = inl err ->
  uploadParallel env bucketName objectPath objectContentType localPath
    predefinedACL threads trunkSize
  = (Done (0, Some err),
     flat_map (launch bucketName objectPath objectContentType localPath
                 predefinedACL trunkSize threads data) (seq 0 i)
     ++ [EvOsOpen localPath]).
Proof.
  intros Hi Hopen Hfail. unfold uploadParallel.
  pose proof (fanOut_open_fails err i 0 (Z.to_nat threads) [] 0 [] Hi) as Hfan.
  cbn [app Nat.add] in Hfan. rewrite Nat.add_0_r in Hfan.
  rewrite Hfan by (try exact Hfail; try reflexivity; intros; apply Hopen; lia).
  rewrite bind_done. cbn [result events fst snd ret]. rewrite app_nil_r.
  reflexivity.
Qed.

End StopsEarly.

(** X7. When the open of the file for chunk i fails in the fan-out of a
    multi-part upload, [UploadFile] returns that error at once: the
    inserts of the chunks before i have been launched and stay launched,
    no insert is issued for chunk i or a later one, no result is received,
    and no compose or delete is issued. *)
Theorem X7_failed_open_ends_the_fan_out (env : Env)
    (bucketName objectPath objectContentType localPath predefinedACL : string)
    (threshold : Z) (bucket : storage.Bucket)
    (fileSize threads trunkSize : Z) (data : list byte)
    (i : nat) (err : error)
    (Hbucket : bucketsGet env bucketName = inr bucket)
    (Hstat : osStat env localPath = inr fileSize)
    (Hplan : result (gcsclient.uploadPlan fileSize threshold)
             = Done (threads, trunkSize, true))
    (Hi : (i < Z.to_nat threads)%nat)
    (Hopen : forall j, (j < i)%nat -> osOpen env j localPath = inr data)
    (Hfail : osOpen env i localPath = inl err) :
  let whole := gcsclient.UploadFile env bucketName objectPath
                 objectContentType localPath predefinedACL threshold in
  result whole = Done (0, Some err)
  /\ map fst (insertRequests (events whole)) = partNames objectPath i
  /\ received (events whole) = []
  /\ composeRequests (events whole) = []
  /\ deleteRequests (events whole) = [].
Proof.
  cbv zeta.
  rewrite (UploadFile_run env bucketName objectPath objectContentType
             localPath predefinedACL threshold bucket fileSize threads
             trunkSize true Hbucket Hstat Hplan).
  cbv zeta.
  rewrite (uploadParallel_open_fails env bucketName objectPath
             objectContentType localPath predefinedACL trunkSize threads
             data i err Hi Hopen Hfail).
  cbn [result events fst snd].
  destruct (uploadPlan_quiet fileSize threshold) as (Hc & Hd & Hins & Hr).
  destruct (launches_quiet bucketName objectPath objectContentType localPath
              predefinedACL trunkSize threads data (seq 0 i))
    as (Lc & Ld & Lr).
  rewrite !insertRequests_app, !composeRequests_app, !deleteRequests_app,
    !received_app, Hc, Hd, Hins, Hr, Lc, Ld, Lr, launches_inserts.
  cbn [insertRequests composeRequests deleteRequests received flat_map app].
  rewrite app_nil_r, map_map. repeat split; reflexivity.
Qed.

Lemma X7_failed_open_ends_the_fan_out_witness :
  let env :=
    withOsOpen (sampleEnv None twoPartFile nowhere nowhere (fun k => k))
      (fun i _ => if (i =? 1)%nat then inl "too many open files"
                  else inr twoPartFile) in
  let whole := gcsclient.UploadFile env "bucket" "dir/file" "" "file" "" 1 in
  result whole = Done (0, Some "too many open files")
  /\ map fst (insertRequests (events whole)) = ["dir/file.part0"].
Proof.
  cbv zeta.
  destruct (X7_failed_open_ends_the_fan_out
              (withOsOpen
                 (sampleEnv None twoPartFile nowhere nowhere (fun k => k))
                 (fun i _ => if (i =? 1)%nat then inl "too many open files"
                             else inr twoPartFile))
              "bucket" "dir/file" "" "file" "" 1 (storage.mkBucket None)
              (Z.of_nat (List.length twoPartFile)) 2 MiB twoPartFile
              1%nat "too many open files")
    as (Hres & Hins & _).
  - reflexivity.
  - reflexivity.
  - apply (sample_parallelUpload None nowhere nowhere (fun k => k)
             "bucket" "file").
  - simpl. lia.
  - intros j Hj. assert (j = 0%nat) as -> by lia. reflexivity.
  - reflexivity.
  - split; [exact Hres | exact Hins].
Defined.

(** X8. When every chunk upload of a multi-part upload succeeds and the
    compose request fails, [UploadFile] returns the compose error with
    generation 0 and issues no delete: the part objects stay in the
    bucket. *)
Theorem X8_failed_compose_leaves_the_parts (env : Env)
    (bucketName objectPath objectContentType localPath predefinedACL : string)
    (threshold : Z) (data : list byte) (threads trunkSize : Z) (err : error)
    (Hupload : parallelUpload env bucketName localPath threshold data
                 threads trunkSize)
    (Hsucceed : forall i, (i < Z.to_nat threads)%nat ->
                  workerError env bucketName objectPath data trunkSize
                    threads i = None)
    (Hcompose : objectsCompose env bucketName objectPath
                  (partNames objectPath (Z.to_nat threads)) = inl err) :
  let whole := gcsclient.UploadFile env bucketName objectPath
                 objectContentType localPath predefinedACL threshold in
  result whole = Done (0, Some err)
  /\ map fst (insertRequests (events whole))
     = partNames objectPath (Z.to_nat threads)
  /\ composeRequests (events whole)
     = [(bucketName, objectPath, partNames objectPath (Z.to_nat threads))]
  /\ deleteRequests (events whole) = [].
Proof.
  destruct (UploadFile_parallel env bucketName objectPath objectContentType
              localPath predefinedACL threshold data threads trunkSize Hupload)
    as (Hres & Hc & Hd & Hins & _).
  cbv zeta. rewrite Hres, Hc, Hd, Hins.
  assert (Hopen : forall j, (j < Z.to_nat threads)%nat ->
                            osOpen env j localPath = inr data).
  { intros j _. apply Hupload. }
  rewrite (uploadParallel_inserts env bucketName objectPath objectContentType
             localPath predefinedACL threads trunkSize data Hopen).
  rewrite (uploadParallel_all_succeed env bucketName objectPath
             objectContentType localPath predefinedACL trunkSize threads
             data Hopen Hsucceed).
  rewrite Hcompose. cbn [result events fst snd].
  destruct (launches_quiet bucketName objectPath objectContentType localPath
              predefinedACL trunkSize threads data (seq 0 (Z.to_nat threads)))
    as (Lc & Ld & _).
  destruct (recvs_quiet env (Z.to_nat threads)) as (Rc & Rd & _).
  rewrite !composeRequests_app, !deleteRequests_app, Lc, Ld, Rc, Rd, map_map.
  repeat split; reflexivity.
Qed.

Lemma X8_failed_compose_leaves_the_parts_witness :
  let env :=
    withObjectsCompose
      (sampleEnv None twoPartFile nowhere nowhere (fun k => k))
      (fun _ _ _ => inl "compose refused") in
  let whole := gcsclient.UploadFile env "bucket" "dir/file" "" "file" "" 1 in
  result whole = Done (0, Some "compose refused")
  /\ deleteRequests (events whole) = [].
Proof.
  cbv zeta.
  destruct (X8_failed_compose_leaves_the_parts
              (withObjectsCompose
                 (sampleEnv None twoPartFile nowhere nowhere (fun k => k))
                 (fun _ _ _ => inl "compose refused"))
              "bucket" "dir/file" "" "file" "" 1 twoPartFile 2 MiB
              "compose refused")
    as (Hres & _ & _ & Hdel).
  - apply (sample_parallelUpload None nowhere nowhere (fun k => k)
             "bucket" "file").
  - intros i Hi. reflexivity.
  - reflexivity.
  - split; [exact Hres | exact Hdel].
Defined.

(** ** The names and sizes of the parts *)

Section Parts.

Import gcsclient.

Lemma append_cancel_l (a b c : string) :
  (a ++ b)%string = (a ++ c)%string -> b = c.
Proof.
  induction a as [| x a IH]; simpl; intros H; [exact H |].
  injection H as H. exact (IH H).
Qed.

Lemma append_empty_r (a : string) : (a ++ "")%string = a.
Proof. induction a as [| x a IH]; simpl; [reflexivity | now rewrite IH]. Qed.

Lemma to_int_not_nil (z : Z) :
  Z.to_int z <> Decimal.Pos Decimal.Nil
  /\ Z.to_int z <> Decimal.Neg Decimal.Nil.
Proof.
  destruct z as [| p | p]; simpl; split; try discriminate;
    intros H; injection H as H; exact (Unsigned.to_uint_nonnil p H).
Qed.

(** [strconv.Itoa] gives different numerals to different integers. *)
Lemma Itoa_inj (a b : Z) : Itoa a = Itoa b -> a = b.
Proof.
  unfold Itoa. intros H. apply DecimalZ.to_int_inj.
  apply (f_equal NilZero.int_of_string) in H.
  destruct (to_int_not_nil a) as [Ha Ha'].
  destruct (to_int_not_nil b) as [Hb Hb'].
  rewrite !NilZero.isi in H by assumption.
  injection H as H. exact H.
Qed.

Lemma partName_inj (objectPath : string) (i j : Z) :
  partName objectPath i = partName objectPath j -> i = j.
Proof.
  unfold partName. intros H.
  apply append_cancel_l, append_cancel_l in H. exact (Itoa_inj i j H).
Qed.

Lemma partName_not_destination (objectPath : string) (i : Z) :
  partName objectPath i <> objectPath.
Proof.
  unfold partName. intros H.
  rewrite <- (append_empty_r objectPath) in H at 2.
  apply append_cancel_l in H. discriminate H.
Qed.

(** With a parallel plan the chunk size asked for is positive and the
    plan is the planner's. *)
Lemma parallel_plan_is_planned (fileSize threshold threads trunkSize : Z) :
  0 <= fileSize <= int64_max ->
  result (uploadPlan fileSize threshold) = Done (threads, trunkSize, true) ->
  0 < shl64 threshold 20
  /\ 1 < threads
  /\ result (planParallelUpload fileSize (shl64 threshold 20))
     = Done (threads, trunkSize).
Proof.
  intros Hfs Hplan.
  pose proof (uploadPlan_parallel_inv fileSize threshold threads trunkSize
                Hfs Hplan) as (Hn & _).
  rewrite uploadPlan_result in Hplan.
  destruct (Z.gtb_spec threshold 0) as [Hth | Hth]; [| discriminate].
  destruct (result (planParallelUpload fileSize (shl64 threshold 20)))
    as [[t c] | msg |] eqn:Hrun; try discriminate.
  cbn [fst snd] in Hplan. injection Hplan as -> -> _.
  split; [| split; [lia | reflexivity]].
  destruct (Z.lt_total (shl64 threshold 20) 0) as [Hneg | [Hzero | Hpos]];
    [| | exact Hpos]; exfalso.
  - unfold planParallelUpload in Hrun.
    destruct (unclampedThreads fileSize (shl64 threshold 20)) as [u |] eqn:Hu;
      [| discriminate].
    pose proof (unclampedThreads_negative _ _ _ Hfs Hneg Hu) as Hle.
    destruct (Z.gtb_spec u 32); [lia |].
    cbn in Hrun. injection Hrun as -> _. lia.
  - unfold planParallelUpload, unclampedThreads, quo64 in Hrun.
    rewrite Hzero in Hrun. discriminate Hrun.
Qed.

Lemma slice_length (data : list byte) (lo hi : nat) :
  (hi <= List.length data)%nat ->
  List.length (slice data lo hi) = (hi - lo)%nat.
Proof.
  intros H. unfold slice. rewrite length_firstn, length_skipn. lia.
Qed.

End Parts.

(** X9. The part objects of an upload have pairwise distinct names, and
    none of them is the destination name: a part never overwrites another
    part or the destination object. *)
Theorem X9_part_names_are_distinct (objectPath : string) (n : nat) :
  NoDup (partNames objectPath n)
  /\ ~ In objectPath (partNames objectPath n).
Proof.
  unfold partNames. split.
  - apply Injective_map_NoDup; [| apply seq_NoDup].
    intros i j H. apply partName_inj in H. lia.
  - intros H. apply in_map_iff in H as (i & H & _).
    exact (partName_not_destination objectPath (Z.of_nat i) H).
Qed.

(** X10. In a multi-part upload no part is empty: every part before the
    last holds exactly trunkSize bytes, at least one, and the last holds
    the rest of the file, which is at least one byte and at most
    trunkSize + 31 bytes. *)
Theorem X10_no_part_is_empty (env : Env)
    (bucketName objectPath objectContentType localPath predefinedACL : string)
    (threshold : Z) (data : list byte) (threads trunkSize : Z)
    (Hupload : parallelUpload env bucketName localPath threshold data
                 threads trunkSize) :
  let n := Z.to_nat threads in
  let t := Z.to_nat trunkSize in
  let sizes :=
    map (fun r => List.length (snd r))
      (insertRequests
         (events (gcsclient.UploadFile env bucketName objectPath
                    objectContentType localPath predefinedACL threshold))) in
  sizes = map (fun i => if (i =? n - 1)%nat
                        then (List.length data - (n - 1) * t)%nat else t)
            (seq 0 n)
  /\ (1 <= t)%nat
  /\ (1 <= List.length data - (n - 1) * t <= t + 31)%nat
  /\ Forall (fun size => (1 <= size)%nat) sizes.
Proof.
  cbv zeta.
  destruct (UploadFile_parallel env bucketName objectPath objectContentType
              localPath predefinedACL threshold data threads trunkSize Hupload)
    as (_ & _ & _ & Hins & _).
  assert (Hmax : 0 <= Z.of_nat (List.length data) <= int64_max)
    by (split; [lia | apply Hupload]).
  destruct (parallel_plan_is_planned _ threshold threads trunkSize Hmax
              ltac:(apply Hupload)) as (Hpos & Hn & Hrun).
  destruct (plan_bounds (Z.of_nat (List.length data)) (shl64 threshold 20)
              Hmax Hpos) as (threads' & chunk & Hrun' & _ & _ & Hchunk & Hlast).
  rewrite Hrun in Hrun'. injection Hrun' as <- <-.
  specialize (Hlast ltac:(lia)). destruct Hlast as [Hlo Hhi].
  assert (Hsizes :
            map (fun r => List.length (snd r))
              (insertRequests
                 (events (gcsclient.UploadFile env bucketName objectPath
                            objectContentType localPath predefinedACL
                            threshold)))
            = map (fun i => if (i =? Z.to_nat threads - 1)%nat
                            then (List.length data
                                  - (Z.to_nat threads - 1)
                                    * Z.to_nat trunkSize)%nat
                            else Z.to_nat trunkSize)
                (seq 0 (Z.to_nat threads))).
  { rewrite Hins.
    rewrite (uploadParallel_inserts env bucketName objectPath
               objectContentType localPath predefinedACL threads trunkSize
               data) by (intros j _; apply Hupload).
    rewrite map_map. cbn [snd]. apply map_ext_in. intros i Hi.
    apply in_seq in Hi.
    rewrite (chunkReader_range env bucketName localPath threshold data
               threads trunkSize Hupload i) by lia.
    destruct (Nat.eqb_spec i (Z.to_nat threads - 1)) as [-> | Hne].
    - apply slice_length. lia.
    - rewrite slice_length by nia. lia. }
  split; [exact Hsizes |]. split; [lia |]. split; [nia |].
  rewrite Hsizes. apply Forall_forall. intros size Hin.
  apply in_map_iff in Hin as (i & <- & _).
  destruct (i =? Z.to_nat threads - 1)%nat; nia.
Qed.

Lemma X10_no_part_is_empty_witness :
  Forall (fun size => (1 <= size)%nat)
    (map (fun r => List.length (snd r))
       (insertRequests
          (events (gcsclient.UploadFile
                     (sampleEnv None twoPartFile nowhere nowhere (fun k => k))
                     "bucket" "dir/file" "" "file" "" 1)))).
Proof.
  destruct (X10_no_part_is_empty
              (sampleEnv None twoPartFile nowhere nowhere (fun k => k))
              "bucket" "dir/file" "" "file" "" 1 twoPartFile 2 MiB
              (sample_parallelUpload _ _ _ _ _ _))
    as (_ & _ & _ & Hall).
  exact Hall.
Defined.

(** ** Downloads *)

(** X11. [DownloadFile] returns no error exactly when the bucket query
    succeeds, the bucket is versioned or the generation is 0, and the get
    of the object, the creation of the local file, the download and the
    copy all succeed; its requests are then these five, in this order.  A
    download without a generation is served from a bucket that is not
    versioned. *)
Theorem X11_download_succeeds_exactly_when_every_step_does (env : Env)
    (bucketName objectPath : string) (generation : Z) (localPath : string) :
  (result (gcsclient.DownloadFile env bucketName objectPath generation
             localPath) = Done None
   <-> exists bucket object body,
         bucketsGet env bucketName = inr bucket
         /\ (versioningEnabled bucket = true \/ generation = 0)
         /\ objectsGet env bucketName objectPath generation = inr object
         /\ osCreate env localPath = None
         /\ objectsDownload env bucketName objectPath generation = inr body
         /\ ioCopy env localPath body = None)
  /\ (result (gcsclient.DownloadFile env bucketName objectPath generation
                localPath) = Done None ->
      events (gcsclient.DownloadFile env bucketName objectPath generation
                localPath)
      = downloadRequests bucketName objectPath generation localPath).
Proof.
  unfold gcsclient.DownloadFile, gcsclient.getBucketVersioning,
    versioningEnabled, downloadRequests.
  rewrite bind_emit.
  destruct (bucketsGet env bucketName) as [e | bucket].
  { cbn. split; [split |]; try discriminate.
    intros (b & o & d & H & _). discriminate H. }
  assert (Hgen : forall enabled : bool,
            negb enabled && negb (generation =? 0) = false
            <-> enabled = true \/ generation = 0).
  { intros enabled. destruct enabled; cbn.
    - intuition.
    - destruct (Z.eqb_spec generation 0); cbn; intuition congruence. }
  set (enabled := match storage.Versioning bucket with
                  | Some e => e
                  | None => false
                  end).
  assert (Hv : match storage.Versioning bucket with
               | Some e => ret (e, None)
               | None => ret (false, @None error)
               end = ret (enabled, None)).
  { unfold enabled. destruct (storage.Versioning bucket); reflexivity. }
  rewrite Hv. cbn [ret result events fst snd]. rewrite bind_done.
  cbn [fst snd]. specialize (Hgen enabled).
  destruct (negb enabled && negb (generation =? 0)) eqn:Hcheck.
  { cbn. split; [split |]; try discriminate.
    intros (b & o & d & H & Hok & _). injection H as <-.
    apply Hgen in Hok. discriminate Hok. }
  rewrite bind_emit.
  destruct (objectsGet env bucketName objectPath generation) as [e | object].
  { cbn. split; [split |]; try discriminate.
    intros (b & o & d & _ & _ & H & _). discriminate H. }
  rewrite bind_emit.
  destruct (osCreate env localPath) as [e |] eqn:Hcreate.
  { cbn. split; [split |]; try discriminate.
    intros (b & o & d & _ & _ & _ & H & _). discriminate H. }
  rewrite bind_emit.
  destruct (objectsDownload env bucketName objectPath generation)
    as [e | body].
  { cbn. split; [split |]; try discriminate.
    intros (b & o & d & _ & _ & _ & _ & H & _). discriminate H. }
  rewrite bind_emit.
  destruct (ioCopy env localPath body) as [e |] eqn:Hcopy.
  { cbn. split; [split |]; try discriminate.
    intros (b & o & d & _ & _ & _ & _ & H & Hc). injection H as <-.
    rewrite Hcopy in Hc. discriminate Hc. }
  cbn. split; [split |]; try reflexivity.
  intros _. exists bucket, object, body.
  repeat split; try assumption. apply Hgen. reflexivity.
Qed.

(** X12. [DownloadFile] always returns, and it creates the local file
    only after the get of the object succeeded and requests the download
    only after the local file was created: a failed get leaves no local
    file behind. *)
Theorem X12_download_creates_no_file_before_the_get (env : Env)
    (bucketName objectPath : string) (generation : Z) (localPath : string) :
  let run := gcsclient.DownloadFile env bucketName objectPath generation
               localPath in
  (exists err, result run = Done err)
  /\ (In (EvOsCreate localPath) (events run) ->
      exists object,
        objectsGet env bucketName objectPath generation = inr object)
  /\ (In (EvDownload bucketName objectPath generation) (events run) ->
      osCreate env localPath = None)
  /\ exists k, events run
               = firstn k (downloadRequests bucketName objectPath
                             generation localPath).
Proof.
  cbv zeta.
  unfold gcsclient.DownloadFile, gcsclient.getBucketVersioning,
    downloadRequests.
  rewrite bind_emit.
  destruct (bucketsGet env bucketName) as [e | bucket].
  { cbn. repeat split; eauto; try (intros [H | []]; discriminate H).
    exists 1%nat. reflexivity. }
  assert (Hv : exists enabled,
            match storage.Versioning bucket with
            | Some e => ret (e, None)
            | None => ret (false, @None error)
            end = ret (enabled, None)).
  { destruct (storage.Versioning bucket); eexists; reflexivity. }
  destruct Hv as (enabled & ->).
  cbn [ret result events fst snd]. rewrite bind_done. cbn [fst snd].
  destruct (negb enabled && negb (generation =? 0)).
  { cbn. repeat split; eauto; try (intros [H | []]; discriminate H).
    exists 1%nat. reflexivity. }
  rewrite bind_emit.
  destruct (objectsGet env bucketName objectPath generation) as [e | object].
  { cbn. repeat split; eauto;
      try (intros [H | [H | []]]; discriminate H).
    exists 2%nat. reflexivity. }
  rewrite bind_emit.
  destruct (osCreate env localPath) as [e |].
  { cbn. repeat split; eauto;
      try (intros [H | [H | [H | []]]]; discriminate H).
    exists 3%nat. reflexivity. }
  rewrite bind_emit.
  destruct (objectsDownload env bucketName objectPath generation)
    as [e | body].
  { cbn. repeat split; eauto. exists 4%nat. reflexivity. }
  rewrite bind_emit.
  destruct (ioCopy env localPath body); cbn; repeat split; eauto;
    exists 5%nat; reflexivity.
Qed.

(** ** Listings *)

Section Listings.

Import gcsclient.

Variable env : Env.
Variables bucketName prefix : string.
Variable versions : bool.

(** A listing served in pages, with fuel for every page: the items of all
    pages are collected in page order, and one request is sent per page,
    each with the token the page before it named. *)
Lemma listPages_served {A : Type} (collect : list storage.Object -> list A) :
  forall (pages : list storage.Objects) (fuel : nat) (token : string)
         (acc : list A),
    servesPages env bucketName prefix versions token pages ->
    (List.length pages <= fuel)%nat ->
    listPages env fuel bucketName prefix versions collect token acc
    = (Done (acc ++ flat_map (fun page => collect (storage.Items page)) pages,
             None),
       map (EvObjectsList bucketName prefix versions)
         (token :: map storage.NextPageToken (removelast pages))).
Proof.
  induction pages as [| page rest IH]; intros fuel token acc Hserved Hfuel;
    [destruct Hserved |].
  destruct fuel as [| fuel]; [simpl in Hfuel; lia |].
  destruct Hserved as [Hpage Hrest].
  cbn [listPages]. rewrite bind_emit, Hpage.
  destruct rest as [| page' rest'].
  - rewrite Hrest. cbn. rewrite app_nil_r. reflexivity.
  - destruct Hrest as [Hnext Hserved].
    apply String.eqb_neq in Hnext. rewrite Hnext.
    rewrite (IH fuel) by (try exact Hserved; simpl in *; lia).
    cbn [result events fst snd flat_map map removelast].
    rewrite <- app_assoc. reflexivity.
Qed.

(** A store that names a next page on every page: the listing uses up any
    number of pages without returning. *)
Lemma listPages_endless {A : Type} (collect : list storage.Object -> list A) :
  (forall token, exists page,
     objectsList env bucketName prefix versions token = inr page
     /\ storage.NextPageToken page <> "") ->
  forall (fuel : nat) (token : string) (acc : list A),
    result (listPages env fuel bucketName prefix versions collect token acc)
    = OutOfFuel
    /\ List.length
         (events (listPages env fuel bucketName prefix versions collect
                    token acc))
       = fuel.
Proof.
  intros Hmore. induction fuel as [| fuel IH]; intros token acc.
  - split; reflexivity.
  - cbn [listPages]. rewrite bind_emit.
    destruct (Hmore token) as (page & -> & Hnext).
    apply String.eqb_neq in Hnext. rewrite Hnext.
    destruct (IH (storage.NextPageToken page)
                (acc ++ collect (storage.Items page))) as [Hres Hlen].
    cbn [result events fst snd List.length]. rewrite Hres, Hlen.
    split; reflexivity.
Qed.

End Listings.

(** X13. [BucketObjects] follows the page tokens of the store: when the
    listing is served in pages and ends, it returns the names of the
    objects of all pages, in page order, with no error, having sent one
    list request per page, the first with the empty token and each next
    one with the token the page before it named. *)
Theorem X13_listing_collects_every_page (env : Env) (fuel : nat)
    (bucketName prefix : string) (pages : list storage.Objects)
    (Hserved : servesPages env bucketName prefix false "" pages)
    (Hfuel : (List.length pages <= fuel)%nat) :
  gcsclient.BucketObjects env fuel bucketName prefix
  = (Done (flat_map (fun page => map storage.Name (storage.Items page)) pages,
           None),
     map (EvObjectsList bucketName prefix false) (pageTokens pages)).
Proof.
  unfold gcsclient.BucketObjects, gcsclient.getBucketObjects, pageTokens.
  rewrite (listPages_served env bucketName prefix false (map storage.Name)
             pages fuel "" [] Hserved Hfuel).
  rewrite bind_done. cbn [fst snd ret result events app].
  rewrite app_nil_r. reflexivity.
Qed.

Lemma X13_listing_collects_every_page_witness :
  gcsclient.BucketObjects
    (withObjectsList (sampleEnv None [] nowhere nowhere (fun k => k))
       (twoPages [storage.mkObject "dir/file-1.tgz" 1 10;
                  storage.mkObject "dir/file-2.tgz" 2 20]
          [storage.mkObject "dir/file-3.tgz" 3 30]))
    2 "bucket" "dir/"
  = (Done (["dir/file-1.tgz"; "dir/file-2.tgz"; "dir/file-3.tgz"], None),
     [EvObjectsList "bucket" "dir/" false "";
      EvObjectsList "bucket" "dir/" false "page-2"]).
Proof.
  apply (X13_listing_collects_every_page
           (withObjectsList (sampleEnv None [] nowhere nowhere (fun k => k))
              (twoPages [storage.mkObject "dir/file-1.tgz" 1 10;
                         storage.mkObject "dir/file-2.tgz" 2 20]
                 [storage.mkObject "dir/file-3.tgz" 3 30]))
           2 "bucket" "dir/"
           [storage.mkObjects [storage.mkObject "dir/file-1.tgz" 1 10;
                               storage.mkObject "dir/file-2.tgz" 2 20]
              "page-2";
            storage.mkObjects [storage.mkObject "dir/file-3.tgz" 3 30] ""]).
  - simpl. repeat split; try reflexivity. discriminate.
  - simpl. lia.
Defined.

(** X14. On a versioned bucket [ObjectGenerations] lists with the object
    path as prefix and keeps the generations of the objects named exactly
    objectPath, in the order the store reports them over all pages;
    objects that only share the prefix are skipped. *)
Theorem X14_generations_of_the_exact_name (env : Env) (fuel : nat)
    (bucketName objectPath : string) (bucket : storage.Bucket)
    (pages : list storage.Objects)
    (Hbucket : bucketsGet env bucketName = inr bucket)
    (Hversioned : versioningEnabled bucket = true)
    (Hserved : servesPages env bucketName objectPath true "" pages)
    (Hfuel : (List.length pages <= fuel)%nat) :
  gcsclient.ObjectGenerations env fuel bucketName objectPath
  = (Done (flat_map
             (fun page =>
                map storage.Generation
                  (filter (fun object =>
                             (storage.Name object =? objectPath)%string)
                     (storage.Items page)))
             pages, None),
     EvBucketsGet bucketName
     :: map (EvObjectsList bucketName objectPath true) (pageTokens pages)).
Proof.
  unfold gcsclient.ObjectGenerations, gcsclient.getBucketVersioning,
    gcsclient.getObjectGenerations, pageTokens.
  rewrite bind_emit, Hbucket.
  unfold versioningEnabled in Hversioned.
  destruct (storage.Versioning bucket) as [enabled |]; [| discriminate].
  subst enabled. cbn [ret result events fst snd]. rewrite bind_done.
  cbn [fst snd negb].
  rewrite (listPages_served env bucketName objectPath true _ pages fuel ""
             [] Hserved Hfuel).
  rewrite bind_done. cbn [fst snd ret result events app].
  rewrite app_nil_r. reflexivity.
Qed.

Lemma X14_generations_of_the_exact_name_witness :
  result
    (gcsclient.ObjectGenerations
       (withObjectsList
          (sampleEnv (Some true) [] nowhere nowhere (fun k => k))
          (twoPages [storage.mkObject "dir/version" 11 10;
                     storage.mkObject "dir/version.bak" 12 20]
             [storage.mkObject "dir/version" 13 30]))
       2 "bucket" "dir/version")
  = Done ([11; 13], None).
Proof.
  rewrite (X14_generations_of_the_exact_name
             (withObjectsList
                (sampleEnv (Some true) [] nowhere nowhere (fun k => k))
                (twoPages [storage.mkObject "dir/version" 11 10;
                           storage.mkObject "dir/version.bak" 12 20]
                   [storage.mkObject "dir/version" 13 30]))
             2 "bucket" "dir/version" (storage.mkBucket (Some true))
             [storage.mkObjects [storage.mkObject "dir/version" 11 10;
                                 storage.mkObject "dir/version.bak" 12 20]
                "page-2";
              storage.mkObjects [storage.mkObject "dir/version" 13 30] ""]).
  - reflexivity.
  - reflexivity.
  - reflexivity.
  - simpl. repeat split; try reflexivity. discriminate.
  - simpl. lia.
Defined.

(** X15. The paging loop of [BucketObjects] has no bound of its own:
    against a store that names a next page on every page it sends request
    after request and has not returned after any number of them. *)
Theorem X15_listing_never_ends_without_a_last_page (env : Env)
    (bucketName prefix : string)
    (Hmore : forall token, exists page,
               objectsList env bucketName prefix false token = inr page
               /\ storage.NextPageToken page <> "") :
  forall fuel : nat,
    result (gcsclient.BucketObjects env fuel bucketName prefix) = OutOfFuel
    /\ List.length
         (events (gcsclient.BucketObjects env fuel bucketName prefix))
       = fuel.
Proof.
  intros fuel.
  unfold gcsclient.BucketObjects, gcsclient.getBucketObjects.
  destruct (listPages_endless env bucketName prefix false (map storage.Name)
              Hmore fuel "" []) as [Hres Hlen].
  destruct (gcsclient.listPages env fuel bucketName prefix false
              (map storage.Name) "" []) as [r es].
  cbn [result events fst snd] in Hres, Hlen. subst r.
  split; [reflexivity | exact Hlen].
Qed.

Lemma X15_listing_never_ends_without_a_last_page_witness :
  result
    (gcsclient.BucketObjects
       (withObjectsList (sampleEnv None [] nowhere nowhere (fun k => k))
          endlessPages)
       1000 "bucket" "dir/")
  = OutOfFuel.
Proof.
  apply (X15_listing_never_ends_without_a_last_page
           (withObjectsList (sampleEnv None [] nowhere nowhere (fun k => k))
              endlessPages)
           "bucket" "dir/").
  intros token. eexists. split; [reflexivity | discriminate].
Defined.

(** X16. When a page of the listing fails after an earlier page was
    served, [getBucketObjects] returns the names it has collected together
    with the error, and [BucketObjects] drops them: it returns the error
    with an empty list. *)
Theorem X16_failed_listing_returns_no_names (env : Env) (fuel : nat)
    (bucketName prefix : string) (first : storage.Objects) (err : error)
    (Hfirst : objectsList env bucketName prefix false "" = inr first)
    (Hnext : storage.NextPageToken first <> "")
    (Hfail : objectsList env bucketName prefix false
               (storage.NextPageToken first) = inl err) :
  result (gcsclient.getBucketObjects env (S (S fuel)) bucketName prefix)
  = Done (map storage.Name (storage.Items first), Some err)
  /\ gcsclient.BucketObjects env (S (S fuel)) bucketName prefix
     = (Done ([], Some err),
        [EvObjectsList bucketName prefix false "";
         EvObjectsList bucketName prefix false
           (storage.NextPageToken first)]).
Proof.
  assert (Hrun : gcsclient.getBucketObjects env (S (S fuel)) bucketName prefix
                 = (Done (map storage.Name (storage.Items first), Some err),
                    [EvObjectsList bucketName prefix false "";
                     EvObjectsList bucketName prefix false
                       (storage.NextPageToken first)])).
  { unfold gcsclient.getBucketObjects. cbn [gcsclient.listPages].
    rewrite bind_emit, Hfirst.
    apply String.eqb_neq in Hnext. rewrite Hnext.
    rewrite bind_emit, Hfail. reflexivity. }
  unfold gcsclient.BucketObjects. rewrite Hrun.
  split; [reflexivity |]. rewrite bind_done. reflexivity.
Qed.

Lemma X16_failed_listing_returns_no_names_witness :
  result
    (gcsclient.BucketObjects
       (withObjectsList (sampleEnv None [] nowhere nowhere (fun k => k))
          (fun _ _ _ token =>
             if (token =? "")%string
             then inr (storage.mkObjects
                         [storage.mkObject "dir/file-1.tgz" 1 10] "page-2")
             else inl "listing failed"))
       2 "bucket" "dir/")
  = Done ([], Some "listing failed").
Proof.
  destruct (X16_failed_listing_returns_no_names
              (withObjectsList (sampleEnv None [] nowhere nowhere (fun k => k))
                 (fun _ _ _ token =>
                    if (token =? "")%string
                    then inr (storage.mkObjects
                                [storage.mkObject "dir/file-1.tgz" 1 10]
                                "page-2")
                    else inl "listing failed"))
              0 "bucket" "dir/"
              (storage.mkObjects [storage.mkObject "dir/file-1.tgz" 1 10]
                 "page-2")
              "listing failed")
    as (_ & Hrun).
  - reflexivity.
  - discriminate.
  - reflexivity.
  - rewrite Hrun. reflexivity.
Defined.

(** ** URLs *)

(** X17. The URL of an object names its generation: when [URL] succeeds
    for two generations of an object with the same result, the two
    generations are the same, and the result is the plain
    gs://bucket/path exactly for generation 0. *)
Theorem X17_url_identifies_the_generation (env : Env)
    (bucketName objectPath : string) (generation generation' : Z)
    (url : string)
    (Hurl : result (gcsclient.URL env bucketName objectPath generation)
            = Done (url, None))
    (Hurl' : result (gcsclient.URL env bucketName objectPath generation')
             = Done (url, None)) :
  generation = generation'
  /\ (generation = 0
      <-> url = ("gs://" ++ bucketName ++ "/" ++ objectPath)%string).
Proof.
  unfold gcsclient.URL in Hurl, Hurl'. rewrite bind_emit in Hurl, Hurl'.
  destruct (objectsGet env bucketName objectPath generation);
    [discriminate Hurl |].
  destruct (objectsGet env bucketName objectPath generation');
    [discriminate Hurl' |].
  assert (Hplain : forall tail : string,
            ("gs://" ++ bucketName ++ "/" ++ objectPath ++ "#" ++ tail)%string
            <> ("gs://" ++ bucketName ++ "/" ++ objectPath)%string).
  { intros tail H.
    apply append_cancel_l, append_cancel_l, append_cancel_l in H.
    rewrite <- (append_empty_r objectPath) in H at 2.
    apply append_cancel_l in H. discriminate H. }
  assert (Hfst : forall (a b : string),
            Done (a, @None error) = Done (b, @None error) -> a = b).
  { intros a b H.
    exact (f_equal (fun r => match r with
                             | Done (u, _) => u
                             | _ => a
                             end) H). }
  destruct (Z.eqb_spec generation 0) as [E | E];
    destruct (Z.eqb_spec generation' 0) as [E' | E'];
    cbn [negb] in Hurl, Hurl'; unfold result, ret in Hurl, Hurl';
    cbn [fst] in Hurl, Hurl';
    apply Hfst in Hurl; apply Hfst in Hurl'; subst url.
  - split; [congruence | tauto].
  - exfalso. exact (Hplain _ Hurl').
  - exfalso. symmetry in Hurl'. exact (Hplain _ Hurl').
  - apply append_cancel_l, append_cancel_l, append_cancel_l,
      append_cancel_l, append_cancel_l in Hurl'.
    apply Itoa_inj in Hurl'. split; [congruence |].
    split; [intros H; contradiction | intros H; exfalso; exact (Hplain _ H)].
Qed.

Lemma X17_url_identifies_the_generation_witness :
  1526400000000000 = 1526400000000000
  /\ (1526400000000000 = 0
      <-> "gs://bucket/dir/version#1526400000000000"
          = ("gs://" ++ "bucket" ++ "/" ++ "dir/version")%string).
Proof.
  apply (X17_url_identifies_the_generation
           (sampleEnv (Some true) [] nowhere nowhere (fun k => k))
           "bucket" "dir/version" 1526400000000000 1526400000000000
           "gs://bucket/dir/version#1526400000000000");
    vm_compute; reflexivity.
Defined.

(** ** What no upload does *)

Section UploadLimits.

Import gcsclient.

Variable env : Env.
Variables bucketName objectPath objectContentType localPath predefinedACL
  : string.

Lemma fanOut_inserts_bound (trunkSize threads : Z) :
  forall (todo : list nat) (sourceObjects : list string)
         (sent : list (option error)),
    (List.length
       (insertRequests
          (events (fanOut env bucketName objectPath objectContentType
                     localPath predefinedACL trunkSize threads todo
                     sourceObjects sent)))
     <= List.length todo)%nat.
Proof.
  induction todo as [| i todo IH]; intros sourceObjects sent;
    [simpl; lia |].
  cbn [fanOut]. rewrite bind_emit.
  destruct (osOpen env i localPath) as [err | data]; [simpl; lia |].
  destruct (setAt i (partName objectPath (Z.of_nat i)) sourceObjects)
    as [s' |]; [| simpl; lia].
  rewrite bind_emit.
  match goal with
  | |- context [fanOut _ _ _ _ _ _ _ _ todo s' ?snt] =>
      specialize (IH s' snt)
  end.
  cbn [events snd result fst] in *.
  change (?a :: ?b :: ?l) with ([a; b] ++ l).
  rewrite insertRequests_app, length_app. simpl. lia.
Qed.

(** After the fan-out the parallel branch issues no insert and at most
    one compose. *)
Lemma after_fanOut_quiet (threads : Z) (sourceObjects : list string)
    (sent : list (option error)) :
  let rest :=
    e <- join env sent 0 (Z.to_nat threads) ;;
    match e with
    | Some err => ret (0, Some err)
    | None =>
        emit (EvStderr InfoCompose) ;;
        emit (EvCompose bucketName objectPath sourceObjects) ;;
        match objectsCompose env bucketName objectPath sourceObjects with
        | inl err => ret (0, Some err)
        | inr _ =>
            emit (EvStderr InfoCleanup) ;;
            cleanup env bucketName objectPath (seq 0 (Z.to_nat threads)) ;;
            ret (0, None)
        end
    end in
  insertRequests (events rest) = []
  /\ (List.length (composeRequests (events rest)) <= 1)%nat.
Proof.
  cbv zeta.
  destruct (join_cases env sent (Z.to_nat threads) 0)
    as [[Hrun _] | (j & err & _ & _ & _ & Hrun)];
    rewrite Hrun, bind_done; cbn [events snd fst result].
  - rewrite !bind_emit. cbn [events snd fst result].
    destruct (recvs_quiet env (Z.to_nat threads)) as (Rc & _ & _).
    rewrite insertRequests_app, composeRequests_app, recvs_no_inserts, Rc.
    destruct (objectsCompose env bucketName objectPath sourceObjects).
    + split; [reflexivity | simpl; lia].
    + rewrite ?bind_emit, cleanup_deletes, ?bind_done.
      cbn [events snd fst result ret app].
      rewrite app_nil_r.
      destruct (deletions_quiet env bucketName objectPath
                  (seq 0 (Z.to_nat threads))) as (Dc & _).
      change (?a :: ?b :: ?c :: ?l) with ([a; b; c] ++ l).
      rewrite insertRequests_app, composeRequests_app,
        deletions_no_inserts, Dc.
      split; [reflexivity | simpl; lia].
  - cbn [ret events snd]. rewrite app_nil_r.
    destruct (recvs_quiet env (S j)) as (Rc & _ & _).
    rewrite recvs_no_inserts, Rc. split; [reflexivity | simpl; lia].
Qed.

Lemma uploadParallel_limits (threads trunkSize : Z) :
  let run := uploadParallel env bucketName objectPath objectContentType
               localPath predefinedACL threads trunkSize in
  (List.length (insertRequests (events run)) <= Z.to_nat threads)%nat
  /\ (List.length (composeRequests (events run)) <= 1)%nat.
Proof.
  cbv zeta. unfold uploadParallel.
  pose proof (fanOut_inserts_bound trunkSize threads
                (seq 0 (Z.to_nat threads)) (repeat "" (Z.to_nat threads)) [])
    as Hins.
  rewrite length_seq in Hins.
  destruct (fanOut_returns env bucketName objectPath objectContentType
              localPath predefinedACL trunkSize threads
              (seq 0 (Z.to_nat threads)) (repeat "" (Z.to_nat threads)) [])
    as (_ & Hc & _).
  { intros i Hi. apply in_seq in Hi. rewrite repeat_length. lia. }
  destruct (fanOut env bucketName objectPath objectContentType localPath
              predefinedACL trunkSize threads (seq 0 (Z.to_nat threads))
              (repeat "" (Z.to_nat threads)) []) as [[f | msg |] es];
    cbn [events snd] in Hins, Hc;
    [| cbn [bind events snd]; rewrite Hc; split; [exact Hins | simpl; lia] ..].
  rewrite bind_done. cbn [events snd].
  rewrite insertRequests_app, composeRequests_app, Hc, !length_app.
  destruct f as [err | [sourceObjects sent]].
  - cbn [ret events snd insertRequests composeRequests flat_map List.length].
    lia.
  - destruct (after_fanOut_quiet threads sourceObjects sent) as [Hi' Hc'].
    cbv zeta in Hi', Hc'. rewrite Hi'. simpl List.length at 2 3. lia.
Qed.

End UploadLimits.

(** X18. Whatever the store and the file system answer, an upload of a
    file whose size is in range issues at most 32 insert requests and at
    most one compose request. *)
Theorem X18_at_most_32_inserts_and_one_compose (env : Env)
    (bucketName objectPath objectContentType localPath predefinedACL : string)
    (threshold : Z)
    (Hsize : forall fileSize,
               osStat env localPath = inr fileSize ->
               0 <= fileSize <= int64_max) :
  let whole := gcsclient.UploadFile env bucketName objectPath
                 objectContentType localPath predefinedACL threshold in
  (List.length (insertRequests (events whole)) <= 32)%nat
  /\ (List.length (composeRequests (events whole)) <= 1)%nat.
Proof.
  cbv zeta. unfold gcsclient.UploadFile, gcsclient.getBucketVersioning.
  rewrite bind_emit.
  destruct (bucketsGet env bucketName) as [err | bucket];
    [cbn; split; lia |].
  assert (Hv : exists enabled,
            match storage.Versioning bucket with
            | Some e => ret (e, None)
            | None => ret (false, @None error)
            end = ret (enabled, None)).
  { destruct (storage.Versioning bucket); eexists; reflexivity. }
  destruct Hv as (enabled & ->).
  cbn [ret result events fst snd]. rewrite bind_done. cbn [fst snd].
  rewrite bind_emit.
  destruct (osStat env localPath) as [err | fileSize] eqn:Hstat;
    [cbn; split; lia |].
  specialize (Hsize fileSize eq_refl).
  destruct (uploadPlan_quiet fileSize threshold) as (Pc & _ & Pi & _).
  pose proof (uploadPlan_parallel_inv fileSize threshold) as Hinv.
  destruct (gcsclient.uploadPlan fileSize threshold)
    as [[[[threads trunkSize] parallelMode] | msg |] es];
    cbn [events snd result fst] in Pc, Pi, Hinv;
    cbn [bind result events fst snd insertRequests composeRequests
           flat_map app];
    try (fold (insertRequests es); fold (composeRequests es);
         rewrite Pi, Pc; simpl; split; lia).
  match goal with
  | |- context [if parallelMode then ?p else ?s] =>
      destruct (if parallelMode then p else s) as [r es'] eqn:Hbranch
  end.
  cbn [events snd insertRequests composeRequests flat_map app].
  fold (insertRequests (es ++ es')). fold (composeRequests (es ++ es')).
  rewrite insertRequests_app, composeRequests_app, Pi, Pc. cbn [app].
  destruct parallelMode.
  - destruct (Hinv threads trunkSize Hsize eq_refl) as (Hn & _).
    destruct (uploadParallel_limits env bucketName objectPath
                objectContentType localPath predefinedACL threads trunkSize)
      as [Hi Hc].
    cbv zeta in Hi, Hc. rewrite Hbranch in Hi, Hc. cbn [events snd] in Hi, Hc.
    split; [lia | exact Hc].
  - unfold gcsclient.uploadSingle in Hbranch. rewrite bind_emit in Hbranch.
    destruct (osOpen env 0%nat localPath) as [err | data].
    + injection Hbranch as _ <-. cbn. split; lia.
    + rewrite bind_emit in Hbranch.
      destruct (objectsInsert env bucketName objectPath data) as [err | obj];
        [| destruct enabled]; injection Hbranch as _ <-; cbn; split; lia.
Qed.

Lemma X18_at_most_32_inserts_and_one_compose_witness :
  (List.length
     (insertRequests
        (events (gcsclient.UploadFile
                   (sampleEnv None twoPartFile nowhere nowhere (fun k => k))
                   "bucket" "dir/file" "" "file" "" 1)))
   <= 32)%nat.
Proof.
  destruct (X18_at_most_32_inserts_and_one_compose
              (sampleEnv None twoPartFile nowhere nowhere (fun k => k))
              "bucket" "dir/file" "" "file" "" 1)
    as (Hins & _).
  - intros fileSize H. unfold sampleEnv in H. cbn [osStat] in H.
    assert (E : fileSize = Z.of_nat (List.length twoPartFile))
      by congruence.
    rewrite E, twoPartFile_length. unfold MiB, int64_max. lia.
  - exact Hins.
Defined.
